(** * Notification configuration of node-zwave-js

    A shallow embedding of [src/lib/config/Notifications.ts]: the lazily
    loaded registry of notification definitions, the constructors that
    validate the parsed configuration file, and the two-phase value lookup.

    Conventions of the embedding:
    - the value produced by [JSON5.parse] is a [JSON] tree; an object is the
      list of its own properties in [Object.keys] order (the keys of an
      object that a parser returns are pairwise distinct; no statement below
      depends on it);
    - [undefined] is [None] in [JSValue := option JSON];
    - a [throw] is the [Throw] constructor of [Result]; the exceptions are
      either [ZWaveError]s or foreign ones ([TypeError], [SyntaxError],
      file-system errors);
    - the module-level variable [notifications], the log and the file-system
      accesses are threaded explicitly through [Process];
    - an [async] call runs to completion before the next one starts: calls
      that overlap while the first load is pending are not modelled. *)

From stdpp Require Import base option list countable gmap strings.
From Stdlib Require Import ZArith Ascii String.

Local Open Scope string_scope.
Local Open Scope list_scope.
Local Open Scope Z_scope.

(** ** JavaScript numbers that occur as map keys *)

(** The keys of the three maps are results of [parseInt(_, 16)]: doubles
    whose value is a non-negative integer, [Infinity] for very long keys, and
    [NaN] when no digit was read. Queries are arbitrary integers. Fractional
    doubles never equal a key and are left out. *)
Inductive number : Set :=
| NaN
| Finite (z : Z)
| Infinity.

Global Instance number_eq_dec : EqDecision number.
Proof. solve_decision. Defined.

Definition number_to_sum (n : number) : Z + bool :=
  match n with
  | Finite z => inl z
  | NaN => inr false
  | Infinity => inr true
  end.

Definition number_of_sum (s : Z + bool) : number :=
  match s with
  | inl z => Finite z
  | inr false => NaN
  | inr true => Infinity
  end.

Global Instance number_countable : Countable number.
Proof. by apply (inj_countable' number_to_sum number_of_sum); intros []. Defined.

(** Rounding of a non-negative integer to the nearest double, ties to even;
    integers of magnitude [2^1024] or more after rounding become [Infinity]. *)
Definition toDouble (n : Z) : number :=
  if n <? 2 ^ 53 then Finite n
  else
    let e := Z.log2 n - 52 in
    let q := Z.shiftr n e in
    let r := Z.land n (Z.ones e) in
    let half := 2 ^ (e - 1) in
    let q' := if (half <? r) || ((r =? half) && Z.odd q) then q + 1 else q in
    let v := Z.shiftl q' e in
    if 2 ^ 1024 <=? v then Infinity else Finite v.

(** ** Parsed configuration values *)

#[warning="-register-all"]
Inductive JSON : Type :=
| JNull
| JBool (b : bool)
| JNumber (n : number)
| JString (s : string)
| JArray (elements : list JSON)
| JObject (props : list (string * JSON)).

(** A JavaScript value read from a property: [None] is [undefined]. *)
Definition JSValue : Type := option JSON.
Abbreviation undefined := (@None JSON).

(** ** Exceptions *)

(** Modelled from the spec: the enumeration [ZWaveErrorCodes] is declared in
    [../error/ZWaveError], which is not among the sources; this file only
    names its member [Config_Invalid]. Every other member is an [Other_Code]. *)
Inductive ZWaveErrorCodes : Set :=
| Config_Invalid
| Other_Code (c : N).

Global Instance ZWaveErrorCodes_eq_dec : EqDecision ZWaveErrorCodes.
Proof. solve_decision. Defined.

(** Modelled from the spec: the class [ZWaveError] comes from the same
    missing module; as its two uses here show, it is built from a message
    and a code and exposes both. Every other exception is [Foreign] and
    carries its name only. *)
Inductive Exception : Set :=
| ZWaveError (message : string) (code : ZWaveErrorCodes)
| Foreign (name : string).

Global Instance Exception_eq_dec : EqDecision Exception.
Proof. solve_decision. Defined.

(** [e instanceof ZWaveError] *)
Definition instanceof_ZWaveError (e : Exception) : bool :=
  match e with
  | ZWaveError _ _ => true
  | Foreign _ => false
  end.

Definition code (e : Exception) : option ZWaveErrorCodes :=
  match e with
  | ZWaveError _ c => Some c
  | Foreign _ => None
  end.

Definition message (e : Exception) : string :=
  match e with
  | ZWaveError m _ => m
  | Foreign n => n
  end.

Inductive Result (A : Type) : Type :=
| Ok (a : A)
| Throw (e : Exception).
Arguments Ok {A} a.
Arguments Throw {A} e.

Global Instance Result_ret : MRet Result := λ A a, Ok a.
Global Instance Result_bind : MBind Result := λ A B f r,
  match r with
  | Ok a => f a
  | Throw e => Throw e
  end.

(** [try { body } catch (e) { handler e }] *)
Definition try_catch {A} (body : Result A) (handler : Exception → Result A) : Result A :=
  match body with
  | Ok a => Ok a
  | Throw e => handler e
  end.

(** What a call into a third-party library ([fs-extra], [JSON5]) does: it
    returns, or it raises an error of its own, which is never a
    [ZWaveError]. *)
Inductive External (A : Type) : Type :=
| Returned (a : A)
| Raised (name : string).
Arguments Returned {A} a.
Arguments Raised {A} name.

Definition external {A} (x : External A) : Result A :=
  match x with
  | Returned a => Ok a
  | Raised n => Throw (Foreign n)
  end.

(** ** Typeguards and property access *)

(** [isObject] and [isArray] of [alcalzone-shared/typeguards]. *)
Definition isObject (v : JSValue) : bool :=
  match v with
  | Some (JObject _) => true
  | _ => false
  end.

Definition isArray (v : JSValue) : bool :=
  match v with
  | Some (JArray _) => true
  | _ => false
  end.

Fixpoint assoc (k : string) (props : list (string * JSON)) : JSValue :=
  match props with
  | [] => undefined
  | (k', v) :: rest => if decide (k = k') then Some v else assoc k rest
  end.

(** [definition.k] for the property names read in this module ([name],
    [variables], [events], [idle], [states], [label], [description]): none
    of them is inherited by a primitive or an array, and reading a property
    of [null] raises a [TypeError]. *)
Definition getProp (definition : JSON) (k : string) : Result JSValue :=
  match definition with
  | JNull => Throw (Foreign "TypeError")
  | JObject props => Ok (assoc k props)
  | _ => Ok undefined
  end.

(** [entries] of [alcalzone-shared/objects], on a value that passed
    [isObject]. *)
Definition entries (v : JSValue) : list (string * JSON) :=
  match v with
  | Some (JObject props) => props
  | _ => []
  end.

(** The elements of a value that passed [isArray]. *)
Definition elements (v : JSValue) : list JSON :=
  match v with
  | Some (JArray l) => l
  | _ => []
  end.

(** [v !== false] *)
Definition strict_ne_false (v : JSValue) : bool :=
  match v with
  | Some (JBool false) => false
  | _ => true
  end.

(** ** Hexadecimal keys *)

Definition hexDigit (c : ascii) : option Z :=
  let n := Z.of_N (N_of_ascii c) in
  if (48 <=? n) && (n <=? 57) then Some (n - 48)
  else if (97 <=? n) && (n <=? 102) then Some (n - 87)
  else if (65 <=? n) && (n <=? 70) then Some (n - 55)
  else None.

Fixpoint allHex (s : string) : bool :=
  match s with
  | EmptyString => true
  | String c rest => bool_decide (is_Some (hexDigit c)) && allHex rest
  end.

(** [hexKeyRegex.test(s)] for [hexKeyRegex = /^0x[a-fA-F0-9]+$/] *)
Definition hexKeyRegex_test (s : string) : bool :=
  match s with
  | String "0" (String "x" (String c rest)) => allHex (String c rest)
  | _ => false
  end.

(** [s.slice(start)] for a non-negative [start] *)
Fixpoint slice (start : nat) (s : string) : string :=
  match start, s with
  | O, _ => s
  | S n, EmptyString => EmptyString
  | S n, String _ rest => slice n rest
  end.

(** The digits of the longest prefix of [s] in radix 16, as an integer. *)
Fixpoint hexPrefix (s : string) (acc : option Z) : option Z :=
  match s with
  | EmptyString => acc
  | String c rest =>
      match hexDigit c with
      | Some d => hexPrefix rest (Some (default 0 acc * 16 + d))
      | None => acc
      end
  end.

(** [parseInt(s, 16)] on a string that starts with neither white space, a
    sign nor a [0x] prefix, which is the case of its three uses here: the
    argument is the slice of a key that passed [hexKeyRegex]. *)
Definition parseInt16 (s : string) : number :=
  match hexPrefix s None with
  | None => NaN
  | Some n => toDouble n
  end.

(** [parseInt(id.slice(2), 16)] *)
Definition keyNumber (id : string) : number := parseInt16 (slice 2 id).

(** ** The two recognised failures *)

Definition ResourceMissing : Exception :=
  ZWaveError "The config file does not exist!" Config_Invalid.

Definition MalformedConfig : Exception :=
  ZWaveError "The config file is malformed!" Config_Invalid.

Definition throwInvalidConfig {A} : Result A := Throw MalformedConfig.

(** ** Leaf records *)

Module NotificationState.
Record t : Type := mk {
  id : number;
  label : JSValue;
  description : JSValue;
}.

Definition new (id : number) (definition : JSON) : Result t :=
  label ← getProp definition "label";
  description ← getProp definition "description";
  mret (mk id label description).
End NotificationState.

Module NotificationEvent.
Record t : Type := mk {
  id : number;
  label : JSValue;
  description : JSValue;
}.

Definition new (id : number) (definition : JSON) : Result t :=
  label ← getProp definition "label";
  description ← getProp definition "description";
  mret (mk id label description).
End NotificationEvent.

(** ** Variables *)

Module NotificationVariable.
Record t : Type := mk {
  name : JSValue;
  idle : bool;
  states : gmap number NotificationState.t;
}.

(** The [for ... of entries(definition.states)] loop; [ret] is the map
    built so far. *)
Fixpoint states_loop (es : list (string * JSON))
    (ret : gmap number NotificationState.t) : Result (gmap number NotificationState.t) :=
  match es with
  | [] => Ok ret
  | (stateId, stateDefinition) :: rest =>
      if negb (hexKeyRegex_test stateId) then throwInvalidConfig
      else
        let stateIdNum := keyNumber stateId in
        state ← NotificationState.new stateIdNum stateDefinition;
        states_loop rest (<[stateIdNum := state]> ret)
  end.

Definition new (definition : JSON) : Result t :=
  name ← getProp definition "name";
  idle_field ← getProp definition "idle";
  let idle := strict_ne_false idle_field in
  states_field ← getProp definition "states";
  if negb (isObject states_field) then throwInvalidConfig
  else
    states ← states_loop (entries states_field) ∅;
    mret (mk name idle states).
End NotificationVariable.

(** [array.map(f)] for an [f] that may throw: the first exception aborts. *)
Fixpoint map_throwing {A B} (f : A → Result B) (l : list A) : Result (list B) :=
  match l with
  | [] => Ok []
  | x :: rest =>
      y ← f x;
      ys ← map_throwing f rest;
      mret (y :: ys)
  end.

(** ** The result of a value lookup *)

(** [NotificationValueDefinition]: the tag is the constructor; [label] and
    [description] are common to both shapes. *)
Inductive NotificationValueDefinition : Type :=
| EventDefinition (label description : JSValue)
| StateDefinition (variableName : JSValue) (value : number) (idle : bool)
    (label description : JSValue).

(** ** Notifications *)

Module Notification.
Record t : Type := mk {
  id : number;
  name : JSValue;
  variables : list NotificationVariable.t;
  events : gmap number NotificationEvent.t;
}.

(** The [for ... of entries(definition.events)] loop. *)
Fixpoint events_loop (es : list (string * JSON))
    (events : gmap number NotificationEvent.t) : Result (gmap number NotificationEvent.t) :=
  match es with
  | [] => Ok events
  | (eventId, eventDefinition) :: rest =>
      if negb (hexKeyRegex_test eventId) then throwInvalidConfig
      else
        let eventIdNum := keyNumber eventId in
        event ← NotificationEvent.new eventIdNum eventDefinition;
        events_loop rest (<[eventIdNum := event]> events)
  end.

Definition new (id : number) (definition : JSON) : Result t :=
  name ← getProp definition "name";
  variables_field ← getProp definition "variables";
  variables ← (if isArray variables_field
               then map_throwing NotificationVariable.new (elements variables_field)
               else Ok []);
  events_field ← getProp definition "events";
  events ← (if isObject events_field
            then events_loop (entries events_field) ∅
            else Ok ∅);
  mret (mk id name variables events).

(** [v => v.states.has(value)] *)
Definition has_state (value : number) (v : NotificationVariable.t) : bool :=
  bool_decide (is_Some (NotificationVariable.states v !! value)).

Definition lookupValue (this : t) (value : number) : option NotificationValueDefinition :=
  match events this !! value with
  | Some event =>
      (* [const { id, ...event } = this.events.get(value)!] drops the id *)
      Some (EventDefinition (NotificationEvent.label event)
                            (NotificationEvent.description event))
  | None =>
      match List.find (has_state value) (variables this) with
      | Some variable =>
          match NotificationVariable.states variable !! value with
          | Some state =>
              Some (StateDefinition (NotificationVariable.name variable) value
                      (NotificationVariable.idle variable)
                      (NotificationState.label state)
                      (NotificationState.description state))
          | None => None
          end
      | None => None
      end
  end.
End Notification.

(** ** The registry *)

(** Accesses to the configuration file, in the order they are made. *)
Inductive IOEvent : Set :=
| PathExists
| ReadFile.

(** What the file system answers during one load: the outcome of
    [pathExists(configPath)] and of [readFile(configPath, "utf8")]. *)
Record FileSystem : Type := {
  pathExists : External bool;
  readFile : External string;
}.

(** The state of the process: the module-level variable [notifications]
    ([None] while it is [undefined]), the lines printed by
    [log.driver.print] with their level (the logger of [../log] is the
    diagnostic channel; printing appends a line), and the file accesses
    made. *)
Record Process : Type := {
  notifications : option (gmap number Notification.t);
  driver_log : list (string * string);
  io : list IOEvent;
}.

Definition initial : Process :=
  {| notifications := None; driver_log := []; io := [] |}.

Section Registry.
(** [JSON5.parse], a third-party parser. *)
Variable JSON5_parse : string → External JSON.

(** The [for ... of entries(definition)] loop of [loadNotifications]. *)
Fixpoint loadNotifications_loop (es : list (string * JSON))
    (ret : gmap number Notification.t) : Result (gmap number Notification.t) :=
  match es with
  | [] => Ok ret
  | (id, ntfcnDefinition) :: rest =>
      if negb (hexKeyRegex_test id) then throwInvalidConfig
      else
        let idNum := keyNumber id in
        ntfcn ← Notification.new idNum ntfcnDefinition;
        loadNotifications_loop rest (<[idNum := ntfcn]> ret)
  end.

(** The body of the [try] block. *)
Definition loadNotifications_try (fs : FileSystem) : Result (gmap number Notification.t) :=
  fileContents ← external (readFile fs);
  definition ← external (JSON5_parse fileContents);
  if negb (isObject (Some definition)) then throwInvalidConfig
  else loadNotifications_loop (entries (Some definition)) ∅.

(** The [catch] block. *)
Definition loadNotifications_catch {A} (e : Exception) : Result A :=
  if instanceof_ZWaveError e then Throw e else Throw MalformedConfig.

Definition loadNotifications (fs : FileSystem)
    : list IOEvent * Result (gmap number Notification.t) :=
  match pathExists fs with
  | Raised n => ([PathExists], Throw (Foreign n))
  | Returned false => ([PathExists], Throw ResourceMissing)
  | Returned true =>
      ([PathExists; ReadFile],
       try_catch (loadNotifications_try fs) loadNotifications_catch)
  end.

(** [e instanceof ZWaveError && e.code === ZWaveErrorCodes.Config_Invalid] *)
Definition recognized (e : Exception) : bool :=
  instanceof_ZWaveError e && bool_decide (code e = Some Config_Invalid).

Definition diagnostic (e : Exception) : string * string :=
  ("Could not load notification config: " +:+ message e, "error")%string.

Definition lookupNotification (fs : FileSystem) (p : Process) (notificationType : number)
    : Process * Result (option Notification.t) :=
  match notifications p with
  | Some loaded => (p, Ok (loaded !! notificationType))
  | None =>
      let '(accesses, outcome) := loadNotifications fs in
      match outcome with
      | Ok loaded =>
          ({| notifications := Some loaded;
              driver_log := driver_log p;
              io := io p ++ accesses |},
           Ok (loaded !! notificationType))
      | Throw e =>
          if recognized e then
            ({| notifications := Some ∅;
                driver_log := driver_log p ++ [diagnostic e];
                io := io p ++ accesses |},
             Ok ((∅ : gmap number Notification.t) !! notificationType))
          else
            ({| notifications := None;
                driver_log := driver_log p;
                io := io p ++ accesses |},
             Throw e)
      end
  end.

(** A sequence of calls, each with the file system as it is at that time. *)
Fixpoint run (calls : list (FileSystem * number)) (p : Process)
    : Process * list (Result (option Notification.t)) :=
  match calls with
  | [] => (p, [])
  | (fs, notificationType) :: rest =>
      let '(p', r) := lookupNotification fs p notificationType in
      let '(p'', rs) := run rest p' in
      (p'', r :: rs)
  end.
End Registry.

(** ** Fixtures *)

(** A stand-in for [JSON5.parse] on finitely many texts: [table] lists the
    texts it accepts with their parse; anything else is a [SyntaxError]. *)
Fixpoint parse_table (table : list (string * JSON)) (text : string) : External JSON :=
  match table with
  | [] => Raised "SyntaxError"
  | (text', tree) :: rest =>
      if decide (text = text') then Returned tree else parse_table rest text
  end.

Definition water_text : string :=
  "{'0x6': {name: 'Water', variables: [{name: 'Leak detected', states: {'0x1': {label: 'Leak'}, '0x2': {label: 'No leak'}}}]}}".

Definition water_tree : JSON :=
  JObject [("0x6", JObject [
    ("name", JString "Water");
    ("variables", JArray [JObject [
       ("name", JString "Leak detected");
       ("states", JObject [
          ("0x1", JObject [("label", JString "Leak")]);
          ("0x2", JObject [("label", JString "No leak")])])]])])].

Definition present (text : string) : FileSystem :=
  {| pathExists := Returned true; readFile := Returned text |}.

Definition absent : FileSystem :=
  {| pathExists := Returned false; readFile := Raised "ENOENT" |}.

(** ** Notions used in the statements, and further fixtures *)

(** Each of the three loops tests the key, converts it and stores what the
    constructor returns under the converted key. [collect] is that loop for
    an arbitrary constructor. *)
Fixpoint collect {A} (ctor : number → JSON → Result A) (es : list (string * JSON))
    (ret : gmap number A) : Result (gmap number A) :=
  match es with
  | [] => Ok ret
  | (k, d) :: rest =>
      if negb (hexKeyRegex_test k) then throwInvalidConfig
      else
        a ← ctor (keyNumber k) d;
        collect ctor rest (<[keyNumber k := a]> ret)
  end.

(** An entry is accepted on its own when its key passes the pattern and the
    constructor returns. *)
Definition accepted {A} (ctor : number → JSON → Result A) (entry : string * JSON) : Prop :=
  hexKeyRegex_test entry.1 = true ∧ ∃ a, ctor (keyNumber entry.1) entry.2 = Ok a.

(** The exceptions raised inside the [try] block: the malformed-config error
    of [throwInvalidConfig], or a foreign one. *)
Definition raised_inside (e : Exception) : Prop :=
  e = MalformedConfig ∨ ∃ n, e = Foreign n.

(** A file system whose [pathExists] itself fails. *)
Definition broken : FileSystem :=
  {| pathExists := Raised "EIO"; readFile := Raised "EIO" |}.

(** The reading of the contract [resolve(notificationType, value)] on the
    entry point: whenever the call returns, what it returns is absent
    exactly when the type is unknown or the record's [lookupValue(value)]
    is absent. *)
Definition returns_lookupValue (JSON5_parse : string → External JSON)
    (fs : FileSystem) (p : Process) (notificationType value : number) : Prop :=
  ∀ p' r,
    lookupNotification JSON5_parse fs p notificationType = (p', Ok r) →
    ∃ loaded,
      notifications p' = Some loaded ∧
      (r = None ↔
       (loaded !! notificationType ≫= λ ntfcn, Notification.lookupValue ntfcn value) = None).

(** A configuration with one valid and one invalid top-level key. *)
Definition mixed_text : string := "{'0x6': {name: 'Water'}, 'zz': {name: 'Oops'}}".

Definition mixed_tree : JSON :=
  JObject [("0x6", JObject [("name", JString "Water")]);
           ("zz", JObject [("name", JString "Oops")])].

(** A notification in which value 5 is both an event and a state. *)
Definition clash_tree : JSON :=
  JObject [
    ("name", JString "Access Control");
    ("variables", JArray [JObject [
       ("name", JString "Lock state");
       ("states", JObject [("0x5", JObject [("label", JString "Locked by state")])])]]);
    ("events", JObject [
       ("0x5", JObject [("label", JString "Keypad lock");
                        ("description", JString "Locked by event")])])].

Definition clash_event : NotificationEvent.t :=
  NotificationEvent.mk (Finite 5) (Some (JString "Keypad lock"))
    (Some (JString "Locked by event")).

Definition clash_state : NotificationState.t :=
  NotificationState.mk (Finite 5) (Some (JString "Locked by state")) undefined.

Definition clash_variable : NotificationVariable.t :=
  NotificationVariable.mk (Some (JString "Lock state")) true {[ Finite 5 := clash_state ]}.

Definition clash : Notification.t :=
  Notification.mk (Finite 6) (Some (JString "Access Control")) [clash_variable]
    {[ Finite 5 := clash_event ]}.

(** A variable definition, with the properties [idle] put before [states]. *)
Definition variable_tree (idle : list (string * JSON)) : JSON :=
  JObject (("name", JString "Leak detected") :: idle ++
           [("states", JObject [("0x1", JObject [("label", JString "Leak")])])]).

Definition variable_built (idle : bool) : NotificationVariable.t :=
  NotificationVariable.mk (Some (JString "Leak detected")) idle
    {[ Finite 1 := NotificationState.mk (Finite 1) (Some (JString "Leak")) undefined ]}.

(** A configuration whose only variable has no [states]. *)
Definition no_states_text : string :=
  "{'0x6': {name: 'Water', variables: [{name: 'Leak detected'}]}}".

Definition no_states_tree : JSON :=
  JObject [("0x6", JObject [
    ("name", JString "Water");
    ("variables", JArray [JObject [("name", JString "Leak detected")]])])].


(** Configurations whose entries are [null], a number and a string. *)
Definition null_entry_text : string := "{'0x6': null}".





(** A configuration with the same number twice at each of the three levels. *)
Definition twice_text : string :=
  "{'0x6': {name: 'First'}, '0x06': {name: 'Second', variables: [{name: 'V', states: {'0x1': {label: 'a'}, '0x01': {label: 'b'}}}], events: {'0x2': {label: 'c'}, '0x02': {label: 'd'}}}}".

Definition twice_states : list (string * JSON) :=
  [("0x1", JObject [("label", JString "a")]); ("0x01", JObject [("label", JString "b")])].

Definition twice_events : list (string * JSON) :=
  [("0x2", JObject [("label", JString "c")]); ("0x02", JObject [("label", JString "d")])].

Definition twice_second : JSON :=
  JObject [("name", JString "Second");
           ("variables", JArray [JObject [("name", JString "V");
                                          ("states", JObject twice_states)]]);
           ("events", JObject twice_events)].

Definition twice_entries : list (string * JSON) :=
  [("0x6", JObject [("name", JString "First")]); ("0x06", twice_second)].

Definition twice_built : Notification.t :=
  Notification.mk (Finite 6) (Some (JString "Second"))
    [NotificationVariable.mk (Some (JString "V")) true
       {[ Finite 1 := NotificationState.mk (Finite 1) (Some (JString "b")) undefined ]}]
    {[ Finite 2 := NotificationEvent.mk (Finite 2) (Some (JString "d")) undefined ]}.

(** ** Notions and fixtures for the further properties *)

Global Instance IOEvent_eq_dec : EqDecision IOEvent.
Proof. solve_decision. Defined.

(** How often the configuration file was read. *)
Definition reads (accesses : list IOEvent) : nat :=
  List.length (filter (λ access, access = ReadFile) accesses).

(** A notification with two variables that both have a state for value 1. *)
Definition shared_first : NotificationVariable.t :=
  NotificationVariable.mk (Some (JString "Sensor")) false
    {[ Finite 1 := NotificationState.mk (Finite 1) (Some (JString "Open")) undefined ]}.

Definition shared_second : NotificationVariable.t :=
  NotificationVariable.mk (Some (JString "Cover")) true
    {[ Finite 1 := NotificationState.mk (Finite 1) (Some (JString "Removed")) undefined ]}.

Definition shared : Notification.t :=
  Notification.mk (Finite 7) (Some (JString "Home Security"))
    [clash_variable; shared_first; shared_second] ∅.

(** A file that exists but cannot be read, and one that does not parse. *)
Definition unreadable : FileSystem :=
  {| pathExists := Returned true; readFile := Raised "EACCES" |}.

Definition garbage_text : string := "{'0x6': ".

(** What holds of a process at any time: while [notifications] is undefined
    nothing was read and nothing was printed; afterwards the file was read
    at most once, and the log is empty or holds the one diagnostic of a
    recognised failure, the mapping being empty then. *)
Definition at_most_once (p : Process) : Prop :=
  match notifications p with
  | None => driver_log p = [] ∧ reads (io p) = 0%nat
  | Some loaded =>
      (reads (io p) ≤ 1)%nat ∧
      (driver_log p = [] ∨
       (loaded = ∅ ∧ ∃ e, driver_log p = [diagnostic e] ∧
                          (e = ResourceMissing ∨ e = MalformedConfig)))
  end.

(** A configuration with a malformed event key, and one with a malformed
    state key. *)
Definition bad_event_text : string :=
  "{'0x6': {name: 'Water', events: {'0x1': {label: 'ok'}, 'x2': {label: 'oops'}}}}".

Definition bad_event_props : list (string * JSON) :=
  [("name", JString "Water");
   ("events", JObject [("0x1", JObject [("label", JString "ok")]);
                       ("x2", JObject [("label", JString "oops")])])].

Definition bad_state_text : string :=
  "{'0x6': {name: 'Water', variables: [{name: 'Leak', states: {'2': {label: 'oops'}}}]}}".

Definition bad_state_variable : list (string * JSON) :=
  [("name", JString "Leak");
   ("states", JObject [("2", JObject [("label", JString "oops")])])].

Definition bad_state_props : list (string * JSON) :=
  [("name", JString "Water"); ("variables", JArray [JObject bad_state_variable])].

(** A notification definition with two variables. *)
Definition two_variables : list JSON :=
  [variable_tree [("idle", JBool false)]; variable_tree []].

Definition two_variables_tree : JSON :=
  JObject [("name", JString "Water"); ("variables", JArray two_variables)].

(** The text of a configuration whose type 6 is [clash_tree], and one whose
    type 7 has the two variables [Sensor] and [Cover] with a state 1 each
    and a state 2 for [Cover] alone. *)
Definition clash_text : string :=
  "{'0x6': {name: 'Access Control', variables: [{name: 'Lock state', states: {'0x5': {label: 'Locked by state'}}}], events: {'0x5': {label: 'Keypad lock', description: 'Locked by event'}}}}".

Definition sensor_tree : JSON :=
  JObject [("name", JString "Sensor"); ("idle", JBool false);
           ("states", JObject [("0x1", JObject [("label", JString "Open")])])].

Definition cover_states : list (string * JSON) :=
  [("0x1", JObject [("label", JString "Removed")]);
   ("0x2", JObject [("label", JString "Closed"); ("description", JString "Cover closed")])].

Definition cover_tree : JSON :=
  JObject [("name", JString "Cover"); ("states", JObject cover_states)].

Definition security_tree : JSON :=
  JObject [("name", JString "Home Security");
           ("variables", JArray [sensor_tree; cover_tree])].

Definition security_text : string :=
  "{'0x7': {name: 'Home Security', variables: [{name: 'Sensor', idle: false, states: {'0x1': {label: 'Open'}}}, {name: 'Cover', states: {'0x1': {label: 'Removed'}, '0x2': {label: 'Closed', description: 'Cover closed'}}}]}}".

(** A configuration with two types, and the same two entries in the other
    order. *)
Definition both_entries : list (string * JSON) :=
  [("0x6", JObject [("name", JString "Water")]);
   ("0x7", JObject [("name", JString "Smoke")])].

Definition both_text : string := "{'0x6': {name: 'Water'}, '0x7': {name: 'Smoke'}}".

Definition both_swapped_text : string := "{'0x7': {name: 'Smoke'}, '0x6': {name: 'Water'}}".

Definition both_parse : string → External JSON :=
  parse_table [(both_text, JObject both_entries);
               (both_swapped_text, JObject (List.rev both_entries))].

(** * Properties *)

(** ** Keys and their numbers *)

Lemma hexPrefix_Some s n : is_Some (hexPrefix s (Some n)).
Proof.
  revert n. induction s as [|c s IH]; intros n; simpl; [by eexists|].
  destruct (hexDigit c); [apply IH|by eexists].
Qed.

Lemma toDouble_exact n : n < 2 ^ 53 → toDouble n = Finite n.
Proof. intros H. unfold toDouble. by apply Z.ltb_lt in H as ->. Qed.

Lemma toDouble_not_NaN n : toDouble n ≠ NaN.
Proof. unfold toDouble. repeat case_match; done. Qed.

(** The slice of a key that passed the pattern starts with a digit, so its
    number is the rounding of an integer and never [NaN]. *)
Lemma valid_key_number id :
  hexKeyRegex_test id = true → ∃ n, keyNumber id = toDouble n.
Proof.
  unfold hexKeyRegex_test. intros H. repeat case_match; try done; subst.
  unfold keyNumber, parseInt16. cbn [slice hexPrefix allHex] in *.
  apply andb_true_iff in H as [[d Hd]%bool_decide_eq_true _]. rewrite Hd.
  match goal with
  | |- context [hexPrefix ?rest (Some ?n)] =>
      destruct (hexPrefix_Some rest n) as [m ->]
  end.
  by eexists.
Qed.

Lemma valid_key_not_NaN id : hexKeyRegex_test id = true → keyNumber id ≠ NaN.
Proof. intros [n ->]%valid_key_number. apply toDouble_not_NaN. Qed.

Example key_numbers :
  keyNumber "0x6" = Finite 6 ∧ keyNumber "0xfF" = Finite 255 ∧
  keyNumber "0x1fffffffffffff" = Finite (2 ^ 53 - 1) ∧
  keyNumber "0x20000000000001" = Finite (2 ^ 53) ∧
  keyNumber "0x20000000000003" = Finite (2 ^ 53 + 4).
Proof. by vm_compute. Qed.

(** ** The end-to-end example *)

Example water_state :
  (lookupNotification (parse_table [(water_text, water_tree)])
     (present water_text) initial (Finite 6)).2
  ≫= (λ r, Ok (r ≫= λ ntfcn, Notification.lookupValue ntfcn (Finite 1))) =
  Ok (Some (StateDefinition (Some (JString "Leak detected")) (Finite 1) true
              (Some (JString "Leak")) undefined)).
Proof. by vm_compute. Qed.

Example water_unknown_value :
  (lookupNotification (parse_table [(water_text, water_tree)])
     (present water_text) initial (Finite 6)).2
  ≫= (λ r, Ok (r ≫= λ ntfcn, Notification.lookupValue ntfcn (Finite 99))) =
  Ok None.
Proof. by vm_compute. Qed.

Example water_unknown_type :
  (lookupNotification (parse_table [(water_text, water_tree)])
     (present water_text) initial (Finite 7)).2 = Ok None.
Proof. by vm_compute. Qed.

(** ** The shape shared by the three loops *)

Lemma states_loop_collect es ret :
  NotificationVariable.states_loop es ret = collect NotificationState.new es ret.
Proof.
  revert ret. induction es as [|[k d] es IH]; intros ret; simpl; [done|].
  destruct (hexKeyRegex_test k); simpl; [|done].
  destruct (NotificationState.new (keyNumber k) d); simpl; [apply IH|done].
Qed.

Lemma events_loop_collect es ret :
  Notification.events_loop es ret = collect NotificationEvent.new es ret.
Proof.
  revert ret. induction es as [|[k d] es IH]; intros ret; simpl; [done|].
  destruct (hexKeyRegex_test k); simpl; [|done].
  destruct (NotificationEvent.new (keyNumber k) d); simpl; [apply IH|done].
Qed.

Lemma loadNotifications_loop_collect es ret :
  loadNotifications_loop es ret = collect Notification.new es ret.
Proof.
  revert ret. induction es as [|[k d] es IH]; intros ret; simpl; [done|].
  destruct (hexKeyRegex_test k); simpl; [|done].
  destruct (Notification.new (keyNumber k) d); simpl; [apply IH|done].
Qed.

Section Collect.
Context {A : Type} (ctor : number → JSON → Result A).

(** The loop returns as soon as every entry is accepted on its own: no
    test relates two entries. *)
Lemma collect_accepts es ret :
  Forall (accepted ctor) es → ∃ m, collect ctor es ret = Ok m.
Proof.
  intros Hall. revert ret.
  induction Hall as [|[k d] es [Hk [a Ha]] _ IH]; intros ret; simpl in *.
  - by eexists.
  - rewrite Hk, Ha. simpl. apply IH.
Qed.

Lemma collect_returns es ret m :
  collect ctor es ret = Ok m → Forall (accepted ctor) es.
Proof.
  revert ret. induction es as [|[k d] es IH]; intros ret; simpl; [by constructor|].
  destruct (hexKeyRegex_test k) eqn:Hk; simpl; [|done].
  destruct (ctor (keyNumber k) d) as [a|] eqn:Ha; simpl; [|done].
  intros Hm. constructor; [by split; [|eexists]|by eapply IH].
Qed.

(** One entry that is not accepted makes the whole loop throw. *)
Lemma collect_rejects es ret entry :
  entry ∈ es → ¬ accepted ctor entry → ∃ e, collect ctor es ret = Throw e.
Proof.
  intros Hin Hbad.
  destruct (collect ctor es ret) as [m|e] eqn:Hc; [|by eexists].
  apply collect_returns in Hc. rewrite Forall_forall in Hc.
  destruct Hbad. by apply Hc.
Qed.

Lemma collect_raises es ret e :
  (∀ n d e', ctor n d = Throw e' → raised_inside e') →
  collect ctor es ret = Throw e → raised_inside e.
Proof.
  intros Hctor. revert ret.
  induction es as [|[k d] es IH]; intros ret; simpl; [done|].
  destruct (hexKeyRegex_test k); simpl; [|intros [= <-]; by left].
  destruct (ctor (keyNumber k) d) as [a|e'] eqn:Ha; simpl; [apply IH|].
  intros [= <-]. by eapply Hctor.
Qed.

(** Keys that do not occur are left as they were. *)
Lemma collect_lookup_other es ret m n :
  collect ctor es ret = Ok m →
  (∀ entry, entry ∈ es → keyNumber entry.1 ≠ n) →
  m !! n = ret !! n.
Proof.
  revert ret. induction es as [|[k d] es IH]; intros ret; simpl.
  - by intros [= ->].
  - destruct (hexKeyRegex_test k); simpl; [|done].
    destruct (ctor (keyNumber k) d) as [a|]; simpl; [|done].
    intros Hm Hne. rewrite (IH _ Hm).
    + apply lookup_insert_ne. apply (Hne (k, d)). by left.
    + intros entry Hin. apply Hne. by right.
Qed.

(** The last entry whose key converts to a number decides what is stored
    under that number. *)
Lemma collect_lookup_last pre k d post ret m :
  collect ctor (pre ++ (k, d) :: post) ret = Ok m →
  (∀ entry, entry ∈ post → keyNumber entry.1 ≠ keyNumber k) →
  ∃ a, ctor (keyNumber k) d = Ok a ∧ m !! keyNumber k = Some a.
Proof.
  revert ret. induction pre as [|[k' d'] pre IH]; intros ret; simpl.
  - destruct (hexKeyRegex_test k); simpl; [|done].
    destruct (ctor (keyNumber k) d) as [a|]; simpl; [|done].
    intros Hm Hne. exists a. split; [done|].
    rewrite (collect_lookup_other _ _ _ _ Hm Hne). apply lookup_insert_eq.
  - destruct (hexKeyRegex_test k'); simpl; [|done].
    destruct (ctor (keyNumber k') d') as [a'|]; simpl; [|done].
    apply IH.
Qed.
End Collect.

(** ** What the constructors raise *)

Create HintDb raises.

(** Case analysis on the next call that may throw. *)
Ltac next_call :=
  match goal with
  | H : context [match ?x with Ok _ => _ | Throw _ => _ end] |- _ =>
      let E := fresh "Hcall" in destruct x eqn:E; simpl in H
  end.

Ltac raises :=
  unfold mbind, mret, Result_bind, Result_ret; simpl; intros;
  repeat (first [done | next_call | progress simplify_eq | case_match]);
  eauto with raises.

Lemma getProp_raises definition k e :
  getProp definition k = Throw e → e = Foreign "TypeError".
Proof. destruct definition; simpl; congruence. Qed.

Lemma getProp_raised_inside definition k e :
  getProp definition k = Throw e → raised_inside e.
Proof. intros ->%getProp_raises. right. by eexists. Qed.
#[export] Hint Resolve getProp_raised_inside : raises.

Lemma malformed_raised_inside : raised_inside MalformedConfig.
Proof. by left. Qed.
#[export] Hint Resolve malformed_raised_inside : raises.

Lemma NotificationState_new_raises id definition e :
  NotificationState.new id definition = Throw e → raised_inside e.
Proof. unfold NotificationState.new. raises. Qed.
#[export] Hint Resolve NotificationState_new_raises : raises.

Lemma NotificationEvent_new_raises id definition e :
  NotificationEvent.new id definition = Throw e → raised_inside e.
Proof. unfold NotificationEvent.new. raises. Qed.
#[export] Hint Resolve NotificationEvent_new_raises : raises.

Lemma states_loop_raises es ret e :
  NotificationVariable.states_loop es ret = Throw e → raised_inside e.
Proof.
  rewrite states_loop_collect. apply collect_raises.
  intros. eauto with raises.
Qed.
#[export] Hint Resolve states_loop_raises : raises.

Lemma events_loop_raises es ret e :
  Notification.events_loop es ret = Throw e → raised_inside e.
Proof.
  rewrite events_loop_collect. apply collect_raises.
  intros. eauto with raises.
Qed.
#[export] Hint Resolve events_loop_raises : raises.

Lemma NotificationVariable_new_raises definition e :
  NotificationVariable.new definition = Throw e → raised_inside e.
Proof. unfold NotificationVariable.new, throwInvalidConfig. raises. Qed.
#[export] Hint Resolve NotificationVariable_new_raises : raises.

Lemma map_throwing_raises {A B} (f : A → Result B) l e :
  (∀ x e', f x = Throw e' → raised_inside e') →
  map_throwing f l = Throw e → raised_inside e.
Proof.
  intros Hf. induction l as [|x l IH]; simpl; [done|].
  destruct (f x) eqn:Hx; simpl; [|intros [= <-]; eauto].
  destruct (map_throwing f l); simpl; [done|]. intros [= <-]. by apply IH.
Qed.

Lemma variables_raises l e :
  map_throwing NotificationVariable.new l = Throw e → raised_inside e.
Proof. apply map_throwing_raises. eauto with raises. Qed.
#[export] Hint Resolve variables_raises : raises.

Lemma Notification_new_raises id definition e :
  Notification.new id definition = Throw e → raised_inside e.
Proof. unfold Notification.new. raises. Qed.
#[export] Hint Resolve Notification_new_raises : raises.

Lemma loadNotifications_loop_raises es ret e :
  loadNotifications_loop es ret = Throw e → raised_inside e.
Proof.
  rewrite loadNotifications_loop_collect. apply collect_raises.
  intros. eauto with raises.
Qed.
#[export] Hint Resolve loadNotifications_loop_raises : raises.

Section Loading.
Variable JSON5_parse : string → External JSON.

Lemma external_raises {A} (x : External A) e :
  external x = Throw e → raised_inside e.
Proof. destruct x; simpl; [done|]. intros [= <-]. right. by eexists. Qed.

Lemma loadNotifications_try_raises fs e :
  loadNotifications_try JSON5_parse fs = Throw e → raised_inside e.
Proof.
  unfold loadNotifications_try, throwInvalidConfig.
  pose proof (@external_raises string). pose proof (@external_raises JSON).
  raises.
Qed.

(** Whatever is thrown inside the [try] block leaves [loadNotifications]
    as the malformed-config error. *)
Lemma catch_normalises e :
  raised_inside e → @loadNotifications_catch (gmap number Notification.t) e = Throw MalformedConfig.
Proof. by intros [->|[n ->]]. Qed.

Lemma load_present_throws fs e :
  pathExists fs = Returned true →
  loadNotifications_try JSON5_parse fs = Throw e →
  loadNotifications JSON5_parse fs = ([PathExists; ReadFile], Throw MalformedConfig).
Proof.
  intros Hex Htry. unfold loadNotifications. rewrite Hex.
  unfold try_catch. rewrite Htry.
  f_equal. apply catch_normalises. by eapply loadNotifications_try_raises.
Qed.

(** The errors [loadNotifications] can end with. *)
Lemma loadNotifications_throws fs e :
  (loadNotifications JSON5_parse fs).2 = Throw e →
  (pathExists fs = Returned false ∧ e = ResourceMissing) ∨
  (pathExists fs = Returned true ∧ e = MalformedConfig) ∨
  (∃ n, pathExists fs = Raised n ∧ e = Foreign n).
Proof.
  unfold loadNotifications.
  destruct (pathExists fs) as [[]|n] eqn:Hex; simpl.
  - unfold try_catch.
    destruct (loadNotifications_try JSON5_parse fs) as [m|e'] eqn:Htry; [done|].
    rewrite (catch_normalises e') by (by eapply loadNotifications_try_raises).
    intros [= <-]. right; left. done.
  - intros [= <-]. by left.
  - intros [= <-]. right; right. by eexists.
Qed.
End Loading.

(** ** The lifecycle of the registry *)

Section Lifecycle.
Variable JSON5_parse : string → External JSON.

Lemma lookupNotification_loaded fs p loaded notificationType :
  notifications p = Some loaded →
  lookupNotification JSON5_parse fs p notificationType = (p, Ok (loaded !! notificationType)).
Proof. intros H. unfold lookupNotification. by rewrite H. Qed.

(** Once the variable is set, calls neither change the process nor touch
    the file system, whatever the file system has become. *)
Lemma run_loaded calls p loaded :
  notifications p = Some loaded →
  run JSON5_parse calls p = (p, map (λ call, Ok (loaded !! call.2)) calls).
Proof.
  intros H. induction calls as [|[fs t] calls IH]; simpl; [done|].
  rewrite (lookupNotification_loaded _ _ _ _ H), IH. done.
Qed.

Lemma loadNotifications_accesses fs :
  ∃ rest, (loadNotifications JSON5_parse fs).1 = PathExists :: rest.
Proof.
  unfold loadNotifications. destruct (pathExists fs) as [[]|]; by eexists.
Qed.

Lemma recognized_failures fs e :
  (loadNotifications JSON5_parse fs).2 = Throw e →
  recognized e = true → e = ResourceMissing ∨ e = MalformedConfig.
Proof.
  intros [[_ ->]|[[_ ->]|[n [_ ->]]]]%loadNotifications_throws; auto.
  discriminate.
Qed.
End Lifecycle.

(** C1: once the load has failed with a recognised error (the resource is
    missing or the configuration is malformed), the call that made the
    attempt prints one diagnostic and sets the mapping to the empty map, and
    every later call, for every notification type and whatever the file
    system has become, returns absent and leaves the process as it is: no
    further file access, no further diagnostic, the mapping still empty. *)
Theorem failed_load_is_permanent (JSON5_parse : string → External JSON)
    (fs : FileSystem) (p : Process) (notificationType : number)
    (accesses : list IOEvent) (e : Exception) (calls : list (FileSystem * number)) :
  notifications p = None →
  loadNotifications JSON5_parse fs = (accesses, Throw e) →
  recognized e = true →
  let first := lookupNotification JSON5_parse fs p notificationType in
  (e = ResourceMissing ∨ e = MalformedConfig) ∧
  first.2 = Ok None ∧
  notifications first.1 = Some ∅ ∧
  driver_log first.1 = driver_log p ++ [diagnostic e] ∧
  io first.1 = io p ++ accesses ∧
  (run JSON5_parse calls first.1).1 = first.1 ∧
  (run JSON5_parse calls first.1).2 = map (λ _, Ok None) calls.
Proof.
  intros Hp Hload He first.
  assert (Hfirst : first =
    ({| notifications := Some ∅; driver_log := driver_log p ++ [diagnostic e];
        io := io p ++ accesses |}, Ok None)).
  { unfold first, lookupNotification. by rewrite Hp, Hload, He. }
  rewrite Hfirst. simpl. split_and!; try done.
  - apply (recognized_failures JSON5_parse fs); [by rewrite Hload|done].
  - by erewrite run_loaded.
  - erewrite run_loaded by done. simpl. apply map_ext. intros call.
    by rewrite lookup_empty.
Qed.

(** C4: when the load ends with an error that is not a recognised config
    error, the entry point throws that same error, prints nothing, and
    leaves [notifications] undefined; the next call then starts the load
    again with a fresh [pathExists] and behaves as a first call would. *)
Theorem unexpected_error_propagates (JSON5_parse : string → External JSON)
    (fs : FileSystem) (p : Process) (notificationType : number)
    (accesses : list IOEvent) (e : Exception)
    (fs' : FileSystem) (notificationType' : number) :
  notifications p = None →
  loadNotifications JSON5_parse fs = (accesses, Throw e) →
  recognized e = false →
  let first := lookupNotification JSON5_parse fs p notificationType in
  let second := lookupNotification JSON5_parse fs' first.1 notificationType' in
  first.2 = Throw e ∧
  driver_log first.1 = driver_log p ∧
  notifications first.1 = None ∧
  io first.1 = io p ++ accesses ∧
  io second.1 = io first.1 ++ (loadNotifications JSON5_parse fs').1 ∧
  (∃ rest, (loadNotifications JSON5_parse fs').1 = PathExists :: rest) ∧
  second.2 = (lookupNotification JSON5_parse fs' initial notificationType').2.
Proof.
  intros Hp Hload He first second.
  assert (Hfirst : first =
    ({| notifications := None; driver_log := driver_log p; io := io p ++ accesses |},
     Throw e)).
  { unfold first, lookupNotification. by rewrite Hp, Hload, He. }
  unfold second. rewrite Hfirst. simpl. split_and!; try done.
  - unfold lookupNotification. simpl.
    destruct (loadNotifications JSON5_parse fs') as [acc' [m|e']]; simpl; [done|].
    by destruct (recognized e').
  - apply loadNotifications_accesses.
  - unfold lookupNotification. simpl.
    destruct (loadNotifications JSON5_parse fs') as [acc' [m|e']]; simpl; [done|].
    by destruct (recognized e').
Qed.

Lemma failed_load_is_permanent_witness :
  let parse := parse_table [(water_text, water_tree)] in
  let first := lookupNotification parse absent initial (Finite 6) in
  let later := [(present water_text, Finite 6); (absent, Finite 7)] in
  (ResourceMissing = ResourceMissing ∨ ResourceMissing = MalformedConfig) ∧
  first.2 = Ok None ∧
  notifications first.1 = Some ∅ ∧
  driver_log first.1 = driver_log initial ++ [diagnostic ResourceMissing] ∧
  io first.1 = io initial ++ [PathExists] ∧
  (run parse later first.1).1 = first.1 ∧
  (run parse later first.1).2 = map (λ _, Ok None) later.
Proof.
  intros parse first later.
  apply (failed_load_is_permanent parse absent initial (Finite 6)
           [PathExists] ResourceMissing later); reflexivity.
Defined.

Lemma unexpected_error_propagates_witness :
  let parse := parse_table [(water_text, water_tree)] in
  let first := lookupNotification parse broken initial (Finite 6) in
  let second := lookupNotification parse (present water_text) first.1 (Finite 6) in
  first.2 = Throw (Foreign "EIO") ∧
  driver_log first.1 = driver_log initial ∧
  notifications first.1 = None ∧
  io first.1 = io initial ++ [PathExists] ∧
  io second.1 = io first.1 ++ (loadNotifications parse (present water_text)).1 ∧
  (∃ rest, (loadNotifications parse (present water_text)).1 = PathExists :: rest) ∧
  second.2 = (lookupNotification parse (present water_text) initial (Finite 6)).2.
Proof.
  intros parse first second.
  apply (unexpected_error_propagates parse broken initial (Finite 6)
           [PathExists] (Foreign "EIO") (present water_text) (Finite 6)); reflexivity.
Defined.

(** ** What the entry point returns *)

(** On the configuration of the end-to-end example, the call for type 6
    returns the record of type 6, although value 99 is known neither as an
    event nor as a state of that record. *)
Lemma returns_lookupValue_counterexample :
  ¬ returns_lookupValue (parse_table [(water_text, water_tree)])
      (present water_text) initial (Finite 6) (Finite 99).
Proof.
  intros H.
  destruct (lookupNotification (parse_table [(water_text, water_tree)])
              (present water_text) initial (Finite 6)) as [p' [[ntfcn|]|e]] eqn:E;
    try (vm_compute in E; discriminate).
  destruct (H p' (Some ntfcn) E) as (loaded & Hloaded & Hiff).
  assert (Habsent :
    (loaded !! Finite 6 ≫= λ ntfcn, Notification.lookupValue ntfcn (Finite 99)) = None).
  { vm_compute in E. injection E as <- <-. simpl in Hloaded.
    injection Hloaded as <-. by vm_compute. }
  apply Hiff in Habsent. discriminate.
Qed.

(** C2, as the code has it: the entry point takes the notification type
    only. It first makes sure the mapping is set (the mapping already there,
    else the loaded one, else the empty one after a recognised failure),
    then returns absent when the type is not a key of the mapping and the
    [Notification] record itself otherwise; it never calls [lookupValue].
    The value descriptor is what the caller gets by calling [lookupValue]
    on the returned record. The call throws only when the load ended with
    an unrecognised error. *)
Theorem lookupNotification_returns_record (JSON5_parse : string → External JSON)
    (fs : FileSystem) (p : Process) (notificationType : number) :
  let call := lookupNotification JSON5_parse fs p notificationType in
  match call.2 with
  | Ok r =>
      ∃ loaded,
        notifications call.1 = Some loaded ∧
        match notifications p with
        | Some before => loaded = before
        | None =>
            (loadNotifications JSON5_parse fs).2 = Ok loaded ∨
            (loaded = ∅ ∧ ∃ e, (loadNotifications JSON5_parse fs).2 = Throw e ∧
                               recognized e = true)
        end ∧
        r = loaded !! notificationType ∧
        ∀ value,
          (r ≫= λ ntfcn, Notification.lookupValue ntfcn value) =
          match loaded !! notificationType with
          | None => None
          | Some ntfcn => Notification.lookupValue ntfcn value
          end
  | Throw e =>
      notifications p = None ∧ notifications call.1 = None ∧
      (loadNotifications JSON5_parse fs).2 = Throw e ∧ recognized e = false
  end.
Proof.
  unfold lookupNotification.
  destruct (notifications p) as [before|] eqn:Hp; simpl.
  - exists before. rewrite Hp. by split_and!.
  - destruct (loadNotifications JSON5_parse fs) as [accesses [loaded|e]]; simpl.
    + exists loaded. split_and!; auto.
    + destruct (recognized e) eqn:He; simpl; [|done].
      exists ∅. split_and!; eauto.
Qed.

(** ** Rejected resources *)

Example hexKeyRegex_rejects :
  hexKeyRegex_test "zz" = false ∧ hexKeyRegex_test "0xgg" = false ∧
  hexKeyRegex_test "1" = false ∧ hexKeyRegex_test "0x" = false ∧
  hexKeyRegex_test "0X1f" = false.
Proof. by vm_compute. Qed.

Example hexKeyRegex_accepts :
  hexKeyRegex_test "0x6" = true ∧ hexKeyRegex_test "0x06" = true ∧
  hexKeyRegex_test "0xaF09" = true.
Proof. by vm_compute. Qed.

(** C3: when the resource exists and its parsed root is not an object, or
    the root is an object one of whose keys fails the pattern
    [^0x[a-fA-F0-9]+$], the load throws the malformed-config error and
    returns no mapping; a first call of the entry point then sets the
    mapping to the empty map, without any of the entries that were valid. *)
Theorem malformed_root_or_key_rejected (JSON5_parse : string → External JSON)
    (fs : FileSystem) (text : string) (root : JSON)
    (p : Process) (notificationType : number) :
  pathExists fs = Returned true →
  readFile fs = Returned text →
  JSON5_parse text = Returned root →
  (isObject (Some root) = false ∨
   ∃ entry, entry ∈ entries (Some root) ∧ hexKeyRegex_test entry.1 = false) →
  notifications p = None →
  let call := lookupNotification JSON5_parse fs p notificationType in
  loadNotifications JSON5_parse fs = ([PathExists; ReadFile], Throw MalformedConfig) ∧
  notifications call.1 = Some ∅ ∧
  call.2 = Ok None.
Proof.
  intros Hex Hread Hparse Hbad Hp call.
  assert (Hload : loadNotifications JSON5_parse fs =
                  ([PathExists; ReadFile], Throw MalformedConfig)).
  { assert (∃ e, loadNotifications_try JSON5_parse fs = Throw e) as [e He].
    { unfold loadNotifications_try. rewrite Hread.
      cbn [external mbind Result_bind]. rewrite Hparse.
      cbn [external mbind Result_bind].
      destruct Hbad as [Hroot|(entry & Hin & Hkey)].
      - rewrite Hroot. simpl. by eexists.
      - destruct (isObject (Some root)); simpl; [|by eexists].
        rewrite loadNotifications_loop_collect.
        apply (collect_rejects _ _ _ entry Hin).
        intros [Hk _]. congruence. }
    by eapply load_present_throws. }
  split; [done|].
  unfold call, lookupNotification. rewrite Hp, Hload. simpl. done.
Qed.

Lemma malformed_root_or_key_rejected_witness :
  let parse := parse_table [(mixed_text, mixed_tree)] in
  let call := lookupNotification parse (present mixed_text) initial (Finite 6) in
  loadNotifications parse (present mixed_text) =
    ([PathExists; ReadFile], Throw MalformedConfig) ∧
  notifications call.1 = Some ∅ ∧
  call.2 = Ok None.
Proof.
  intros parse call.
  apply (malformed_root_or_key_rejected parse (present mixed_text) mixed_text mixed_tree
           initial (Finite 6)); try reflexivity.
  right. exists ("zz", JObject [("name", JString "Oops")]).
  split; [|reflexivity]. simpl. apply list_elem_of_In. simpl. tauto.
Defined.

(** ** The two recognised failures *)

(** C8: the missing-resource failure and the malformed-config failure are
    both a [ZWaveError] with the code [Config_Invalid]; they differ in their
    message only, and the test of the entry point looks at the class and the
    code, so it accepts both and cannot tell them apart. *)
Theorem recognized_failures_share_code (JSON5_parse : string → External JSON) :
  (∀ fs, pathExists fs = Returned false →
         (loadNotifications JSON5_parse fs).2 =
         Throw (ZWaveError "The config file does not exist!" Config_Invalid)) ∧
  (∀ fs e, pathExists fs = Returned true →
           (loadNotifications JSON5_parse fs).2 = Throw e →
           e = ZWaveError "The config file is malformed!" Config_Invalid) ∧
  (∀ A, @throwInvalidConfig A =
        Throw (ZWaveError "The config file is malformed!" Config_Invalid)) ∧
  instanceof_ZWaveError ResourceMissing = instanceof_ZWaveError MalformedConfig ∧
  code ResourceMissing = Some Config_Invalid ∧
  code MalformedConfig = Some Config_Invalid ∧
  message ResourceMissing ≠ message MalformedConfig ∧
  recognized ResourceMissing = true ∧
  recognized MalformedConfig = true ∧
  (∀ text c, recognized (ZWaveError text c) = bool_decide (c = Config_Invalid)) ∧
  (∀ n, recognized (Foreign n) = false).
Proof.
  split_and!; try done.
  - intros fs Hex. unfold loadNotifications. by rewrite Hex.
  - intros fs e Hex [[Hex' _]|[[_ ->]|[n [Hex' _]]]]%loadNotifications_throws;
      [congruence|done|congruence].
  - intros text c. unfold recognized. simpl. by destruct c.
Qed.

Lemma recognized_failures_share_code_witness :
  let parse := parse_table [(mixed_text, mixed_tree)] in
  (loadNotifications parse absent).2 =
    Throw (ZWaveError "The config file does not exist!" Config_Invalid) ∧
  (loadNotifications parse (present mixed_text)).2 =
    Throw (ZWaveError "The config file is malformed!" Config_Invalid).
Proof.
  intros parse.
  destruct (recognized_failures_share_code parse) as (Hmissing & Hmalformed & _).
  split.
  - apply Hmissing. reflexivity.
  - destruct (loadNotifications parse (present mixed_text)).2 as [m|e] eqn:E.
    + vm_compute in E. discriminate.
    + f_equal. apply (Hmalformed (present mixed_text)); [reflexivity|exact E].
Defined.

(** ** Value lookup *)

Lemma find_has_state value variables variable :
  List.find (Notification.has_state value) variables = Some variable →
  variable ∈ variables ∧ is_Some (NotificationVariable.states variable !! value).
Proof.
  intros [Hin Hhas]%find_some. split; [by apply list_elem_of_In|].
  unfold Notification.has_state in Hhas. by apply bool_decide_eq_true in Hhas.
Qed.

(** The variable found by [find] always has the state that is then read:
    the non-null assertion on [states.get(value)] never fails. *)
Lemma lookupValue_state_found this value variable :
  List.find (Notification.has_state value) (Notification.variables this) = Some variable →
  ∃ state, NotificationVariable.states variable !! value = Some state.
Proof. by intros [_ [state ?]]%find_has_state; eexists. Qed.

(** C5: a value that is a key of the events mapping is resolved to the
    descriptor tagged "event", which carries the event's label and
    description and not its id, also when some variable has a state for the
    same value: the events are looked up before the variables. *)
Theorem event_wins (this : Notification.t) (value : number)
    (event : NotificationEvent.t) (variable : NotificationVariable.t)
    (state : NotificationState.t) :
  Notification.events this !! value = Some event →
  variable ∈ Notification.variables this →
  NotificationVariable.states variable !! value = Some state →
  Notification.lookupValue this value =
    Some (EventDefinition (NotificationEvent.label event)
                          (NotificationEvent.description event)) ∧
  ∀ variableName value' idle label description,
    Notification.lookupValue this value ≠
    Some (StateDefinition variableName value' idle label description).
Proof.
  intros Hevent _ _. unfold Notification.lookupValue. rewrite Hevent.
  split; [done|]. intros; discriminate.
Qed.

Example clash_constructed : Notification.new (Finite 6) clash_tree = Ok clash.
Proof. by vm_compute. Qed.

Lemma event_wins_witness :
  Notification.lookupValue clash (Finite 5) =
    Some (EventDefinition (Some (JString "Keypad lock")) (Some (JString "Locked by event"))) ∧
  ∀ variableName value' idle label description,
    Notification.lookupValue clash (Finite 5) ≠
    Some (StateDefinition variableName value' idle label description).
Proof.
  apply (event_wins clash (Finite 5) clash_event clash_variable clash_state).
  - reflexivity.
  - apply list_elem_of_In. simpl. tauto.
  - reflexivity.
Defined.

(** Without the event, the same value is resolved to the state. *)
Example state_when_no_event :
  Notification.lookupValue
    (Notification.mk (Finite 6) (Some (JString "Access Control")) [clash_variable] ∅)
    (Finite 5) =
  Some (StateDefinition (Some (JString "Lock state")) (Finite 5) true
          (Some (JString "Locked by state")) undefined).
Proof. by vm_compute. Qed.


Example idle_omitted :
  NotificationVariable.new (variable_tree []) = Ok (variable_built true).
Proof. by vm_compute. Qed.

Example idle_true :
  NotificationVariable.new (variable_tree [("idle", JBool true)]) = Ok (variable_built true).
Proof. by vm_compute. Qed.

Example idle_string_no :
  NotificationVariable.new (variable_tree [("idle", JString "no")]) = Ok (variable_built true).
Proof. by vm_compute. Qed.

Example idle_null :
  NotificationVariable.new (variable_tree [("idle", JNull)]) = Ok (variable_built true).
Proof. by vm_compute. Qed.

Example idle_false :
  NotificationVariable.new (variable_tree [("idle", JBool false)]) = Ok (variable_built false).
Proof. by vm_compute. Qed.


(** ** Permissive [variables], strict [states] *)

Lemma map_throwing_rejects {A B} (f : A → Result B) l x e :
  x ∈ l → f x = Throw e → ∃ e', map_throwing f l = Throw e'.
Proof.
  intros Hin Hx. induction Hin as [x l|x y l Hin IH]; simpl.
  - rewrite Hx. by eexists.
  - destruct (f y); simpl; [|by eexists].
    destruct (IH Hx) as [e' ->]. by eexists.
Qed.

(** A variable without a [states] object is rejected by its constructor. *)
Lemma NotificationVariable_new_needs_states definition states_field :
  getProp definition "states" = Ok states_field →
  isObject states_field = false →
  NotificationVariable.new definition = Throw MalformedConfig.
Proof.
  intros Hstates Hobj. unfold NotificationVariable.new.
  destruct definition; try done; simpl in *;
    injection Hstates as <-; by rewrite ?Hobj.
Qed.

(** With [variables] not an array, the constructor of a notification is its
    events phase alone. *)
Lemma Notification_new_without_variables id props :
  isArray (assoc "variables" props) = false →
  Notification.new id (JObject props) =
    (events ← (if isObject (assoc "events" props)
               then Notification.events_loop (entries (assoc "events" props)) ∅
               else Ok ∅);
     mret (Notification.mk id (assoc "name" props) [] events)).
Proof. intros Harr. unfold Notification.new. simpl. by rewrite Harr. Qed.

(** C6: the two constructors differ in strictness. For a notification whose
    [variables] field is absent or not an array, the constructor raises no
    error on that account: every notification it returns has an empty
    [variables] sequence, it returns when [events] is absent or not an
    object, and it can only throw what the events loop throws. For a
    variable whose [states] field is absent or not an object, the
    constructor throws the malformed-config error, and a load that reaches
    such a variable fails as a whole with that error. *)
Theorem variables_permissive_states_strict (JSON5_parse : string → External JSON) :
  (∀ id props,
     isArray (assoc "variables" props) = false →
     (∀ ntfcn, Notification.new id (JObject props) = Ok ntfcn →
               Notification.variables ntfcn = []) ∧
     (isObject (assoc "events" props) = false →
      Notification.new id (JObject props) =
        Ok (Notification.mk id (assoc "name" props) [] ∅)) ∧
     (∀ e, Notification.new id (JObject props) = Throw e →
           isObject (assoc "events" props) = true ∧
           Notification.events_loop (entries (assoc "events" props)) ∅ = Throw e)) ∧
  (∀ props,
     isObject (assoc "states" props) = false →
     NotificationVariable.new (JObject props) = Throw MalformedConfig) ∧
  (∀ fs text es id props variables variable,
     pathExists fs = Returned true →
     readFile fs = Returned text →
     JSON5_parse text = Returned (JObject es) →
     (id, JObject props) ∈ es →
     assoc "variables" props = Some (JArray variables) →
     JObject variable ∈ variables →
     isObject (assoc "states" variable) = false →
     loadNotifications JSON5_parse fs = ([PathExists; ReadFile], Throw MalformedConfig)).
Proof.
  split_and!.
  - intros id props Harr.
    rewrite (Notification_new_without_variables id props Harr).
    destruct (isObject (assoc "events" props)); simpl.
    + destruct (Notification.events_loop _ _) as [events|e'] eqn:Hloop; simpl.
      * split_and!; [by intros ntfcn [= <-]|done|done].
      * split_and!; [done|done|]. intros e [= <-]. done.
    + split_and!; [by intros ntfcn [= <-]|done|done].
  - intros props Hobj.
    by apply (NotificationVariable_new_needs_states _ (assoc "states" props)).
  - intros fs text es id props variables variable Hex Hread Hparse Hin Hvars Hvin Hobj.
    assert (∃ e, loadNotifications_try JSON5_parse fs = Throw e) as [e He].
    { unfold loadNotifications_try. rewrite Hread.
      cbn [external mbind Result_bind]. rewrite Hparse.
      cbn [external mbind Result_bind isObject negb entries].
      rewrite loadNotifications_loop_collect.
      apply (collect_rejects _ _ _ (id, JObject props) Hin).
      intros [_ [ntfcn Hnew]]. simpl in Hnew.
      unfold Notification.new in Hnew. simpl in Hnew. rewrite Hvars in Hnew.
      simpl in Hnew.
      destruct (map_throwing_rejects NotificationVariable.new variables
                  (JObject variable) MalformedConfig Hvin) as [e' He'].
      { by apply (NotificationVariable_new_needs_states _ (assoc "states" variable)). }
      by rewrite He' in Hnew. }
    by eapply load_present_throws.
Qed.

Lemma variables_permissive_states_strict_witness :
  let parse := parse_table [(no_states_text, no_states_tree)] in
  Notification.new (Finite 6) (JObject [("name", JString "Water"); ("variables", JString "none")]) =
    Ok (Notification.mk (Finite 6) (Some (JString "Water")) [] ∅) ∧
  NotificationVariable.new (JObject [("name", JString "Leak detected")]) =
    Throw MalformedConfig ∧
  loadNotifications parse (present no_states_text) =
    ([PathExists; ReadFile], Throw MalformedConfig).
Proof.
  intros parse.
  destruct (variables_permissive_states_strict parse) as (Hperm & Hstrict & Hload).
  split_and!.
  - apply (Hperm (Finite 6) [("name", JString "Water"); ("variables", JString "none")]);
      reflexivity.
  - apply Hstrict. reflexivity.
  - apply (Hload (present no_states_text) no_states_text
             [("0x6", JObject [("name", JString "Water");
                ("variables", JArray [JObject [("name", JString "Leak detected")]])])]
             "0x6"
             [("name", JString "Water");
              ("variables", JArray [JObject [("name", JString "Leak detected")]])]
             [JObject [("name", JString "Leak detected")]]
             [("name", JString "Leak detected")]); try reflexivity.
    + apply list_elem_of_In. simpl. tauto.
    + apply list_elem_of_In. simpl. tauto.
Defined.

(** ** Entries that are not objects *)

Section Returning.
Variable JSON5_parse : string → External JSON.


Lemma lookupNotification_first_load fs p notificationType accesses loaded :
  notifications p = None →
  loadNotifications JSON5_parse fs = (accesses, Ok loaded) →
  lookupNotification JSON5_parse fs p notificationType =
    ({| notifications := Some loaded; driver_log := driver_log p;
        io := io p ++ accesses |},
     Ok (loaded !! notificationType)).
Proof. intros Hp Hload. unfold lookupNotification. by rewrite Hp, Hload. Qed.
End Returning.


Example null_entry_rejected :
  loadNotifications (parse_table [(null_entry_text, JObject [("0x6", JNull)])])
    (present null_entry_text) =
  ([PathExists; ReadFile], Throw MalformedConfig).
Proof. by vm_compute. Qed.



(** ** Keys that denote the same number *)

Example same_number :
  keyNumber "0x6" = Finite 6 ∧ keyNumber "0x06" = Finite 6 ∧ "0x6" ≠ "0x06".
Proof. by vm_compute. Qed.

(** Beyond [2^53] also keys that denote different integers collide. *)
Example same_double :
  keyNumber "0x20000000000000" = keyNumber "0x20000000000001".
Proof. by vm_compute. Qed.

Section Duplicates.
Context {A : Type} (ctor : number → JSON → Result A).

End Duplicates.


Example twice_loaded :
  lookupNotification (parse_table [(twice_text, JObject twice_entries)])
    (present twice_text) initial (Finite 6) =
  ({| notifications := Some {[ Finite 6 := twice_built ]}; driver_log := [];
      io := [PathExists; ReadFile] |},
   Ok (Some twice_built)).
Proof. by vm_compute. Qed.


(** * Further properties *)

(** ** Value lookup among the variables *)

Lemma find_first {A} (f : A → bool) before x after :
  (∀ y, y ∈ before → f y = false) → f x = true →
  List.find f (before ++ x :: after) = Some x.
Proof.
  intros Hbefore Hx. induction before as [|y before IH]; simpl.
  - by rewrite Hx.
  - rewrite (Hbefore y) by (by left). apply IH. intros z Hz. apply Hbefore. by right.
Qed.

Lemma has_state_false value variable :
  Notification.has_state value variable = false ↔
  NotificationVariable.states variable !! value = None.
Proof.
  unfold Notification.has_state. rewrite bool_decide_eq_false, <- eq_None_not_Some. done.
Qed.

Lemma find_has_state_None value variables :
  List.find (Notification.has_state value) variables = None ↔
  ∀ variable, variable ∈ variables → NotificationVariable.states variable !! value = None.
Proof.
  split.
  - intros Hfind variable Hin. apply has_state_false.
    apply (find_none _ _ Hfind). by apply list_elem_of_In.
  - intros Hall. induction variables as [|v variables IH]; simpl; [done|].
    assert (Notification.has_state value v = false) as ->.
    { apply has_state_false, Hall. by left. }
    apply IH. intros variable Hin. apply Hall. by right.
Qed.

(** X1: a value that is no event key is resolved by the first variable, in
    the stored order, that has a state for it; the descriptor carries the
    queried value, that variable's [idle] flag and name, and the label and
    description of its state, whatever later variables hold for the value. *)
Theorem state_of_first_variable (this : Notification.t) (value : number)
    (before after : list NotificationVariable.t)
    (variable : NotificationVariable.t) (state : NotificationState.t) :
  Notification.events this !! value = None →
  Notification.variables this = before ++ variable :: after →
  (∀ earlier, earlier ∈ before → NotificationVariable.states earlier !! value = None) →
  NotificationVariable.states variable !! value = Some state →
  Notification.lookupValue this value =
    Some (StateDefinition (NotificationVariable.name variable) value
            (NotificationVariable.idle variable)
            (NotificationState.label state) (NotificationState.description state)).
Proof.
  intros Hevent Hvars Hbefore Hstate. unfold Notification.lookupValue.
  rewrite Hevent, Hvars, (find_first _ before variable after).
  - by rewrite Hstate.
  - intros earlier Hin. by apply has_state_false, Hbefore.
  - unfold Notification.has_state. apply bool_decide_eq_true. by rewrite Hstate.
Qed.

Lemma state_of_first_variable_witness :
  Notification.lookupValue shared (Finite 1) =
    Some (StateDefinition (Some (JString "Sensor")) (Finite 1) false
            (Some (JString "Open")) undefined).
Proof.
  apply (state_of_first_variable shared (Finite 1) [clash_variable] [shared_second]
           shared_first (NotificationState.mk (Finite 1) (Some (JString "Open")) undefined)).
  - reflexivity.
  - reflexivity.
  - intros earlier Hin. apply list_elem_of_In in Hin. simpl in Hin.
    destruct Hin as [<-|[]]. reflexivity.
  - reflexivity.
Defined.

(** X2: [lookupValue] is absent exactly for the values that are neither a
    key of the events nor a key of the states of any variable. *)
Theorem lookupValue_absent_iff (this : Notification.t) (value : number) :
  Notification.lookupValue this value = None ↔
  Notification.events this !! value = None ∧
  ∀ variable, variable ∈ Notification.variables this →
              NotificationVariable.states variable !! value = None.
Proof.
  unfold Notification.lookupValue.
  destruct (Notification.events this !! value) as [event|]; [by split; [|intros []]|].
  destruct (List.find _ _) as [variable|] eqn:Hfind.
  - destruct (find_has_state _ _ _ Hfind) as [Hin [state Hstate]]. rewrite Hstate.
    split; [done|]. intros [_ Hall]. specialize (Hall variable Hin). congruence.
  - split; [|done]. intros _. split; [done|]. by apply find_has_state_None.
Qed.

(** ** The lifecycle after a load that returned *)

Section Outcomes.
Variable JSON5_parse : string → External JSON.

(** The four ways a load can end, with the accesses it made. *)
Lemma loadNotifications_outcomes fs :
  (pathExists fs = Returned false ∧
   loadNotifications JSON5_parse fs = ([PathExists], Throw ResourceMissing)) ∨
  (∃ n, pathExists fs = Raised n ∧
        loadNotifications JSON5_parse fs = ([PathExists], Throw (Foreign n))) ∨
  (pathExists fs = Returned true ∧
   loadNotifications JSON5_parse fs = ([PathExists; ReadFile], Throw MalformedConfig)) ∨
  (pathExists fs = Returned true ∧
   ∃ loaded, loadNotifications JSON5_parse fs = ([PathExists; ReadFile], Ok loaded)).
Proof.
  destruct (pathExists fs) as [[]|n] eqn:Hex.
  - destruct (loadNotifications_try JSON5_parse fs) as [loaded|e] eqn:Htry.
    + right; right; right. split; [done|]. exists loaded.
      unfold loadNotifications, try_catch. by rewrite Hex, Htry.
    + right; right; left. split; [done|]. by eapply load_present_throws.
  - left. split; [done|]. unfold loadNotifications. by rewrite Hex.
  - right; left. exists n. split; [done|]. unfold loadNotifications. by rewrite Hex.
Qed.

Lemma reads_app l l' : reads (l ++ l') = (reads l + reads l')%nat.
Proof. unfold reads. by rewrite filter_app, length_app. Qed.

Lemma at_most_once_step fs p notificationType :
  at_most_once p →
  at_most_once (lookupNotification JSON5_parse fs p notificationType).1.
Proof.
  unfold at_most_once, lookupNotification.
  destruct (notifications p) as [loaded|] eqn:Hp; simpl; [by rewrite Hp|].
  intros [Hlog Hio].
  destruct (loadNotifications_outcomes fs)
    as [[_ ->]|[[n [_ ->]]|[[_ ->]|[_ [loaded ->]]]]]; simpl;
    rewrite ?reads_app, ?Hio, ?Hlog; simpl.
  - split; [vm_compute; lia|]. right. split; [done|]. exists ResourceMissing. auto.
  - by vm_compute.
  - split; [vm_compute; lia|]. right. split; [done|]. exists MalformedConfig. auto.
  - split; [vm_compute; lia|]. by left.
Qed.

Lemma at_most_once_run calls p :
  at_most_once p → at_most_once (run JSON5_parse calls p).1.
Proof.
  revert p. induction calls as [|[fs t] calls IH]; intros p Hp; simpl; [done|].
  pose proof (at_most_once_step fs p t Hp) as Hstep.
  destruct (lookupNotification JSON5_parse fs p t) as [p' r]. simpl in Hstep.
  specialize (IH p' Hstep).
  destruct (run JSON5_parse calls p') as [p'' rs]. done.
Qed.
End Outcomes.

(** X3: a load that returned is as permanent as one that failed: the call
    that made it stores the mapping without printing anything, and every
    later call, whatever the file system has become, answers from that
    mapping and leaves the process as it is. The file is not read again. *)
Theorem successful_load_is_permanent (JSON5_parse : string → External JSON)
    (fs : FileSystem) (p : Process) (notificationType : number)
    (accesses : list IOEvent) (loaded : gmap number Notification.t)
    (calls : list (FileSystem * number)) :
  notifications p = None →
  loadNotifications JSON5_parse fs = (accesses, Ok loaded) →
  let first := lookupNotification JSON5_parse fs p notificationType in
  first.2 = Ok (loaded !! notificationType) ∧
  notifications first.1 = Some loaded ∧
  driver_log first.1 = driver_log p ∧
  io first.1 = io p ++ accesses ∧
  (run JSON5_parse calls first.1).1 = first.1 ∧
  (run JSON5_parse calls first.1).2 = map (λ call, Ok (loaded !! call.2)) calls.
Proof.
  intros Hp Hload first. unfold first.
  rewrite (lookupNotification_first_load JSON5_parse fs p _ accesses loaded Hp Hload).
  simpl. split_and!; try done; by erewrite run_loaded.
Qed.

Lemma successful_load_is_permanent_witness :
  let parse := parse_table [(water_text, water_tree)] in
  let first := lookupNotification parse (present water_text) initial (Finite 7) in
  let later := [(absent, Finite 6); (present mixed_text, Finite 7)] in
  ∃ loaded,
    first.2 = Ok (loaded !! Finite 7) ∧
    notifications first.1 = Some loaded ∧
    driver_log first.1 = driver_log initial ∧
    io first.1 = io initial ++ [PathExists; ReadFile] ∧
    (run parse later first.1).1 = first.1 ∧
    (run parse later first.1).2 = map (λ call, Ok (loaded !! call.2)) later.
Proof.
  intros parse first later.
  destruct (loadNotifications parse (present water_text)) as [accesses [loaded|e]] eqn:E;
    [|vm_compute in E; discriminate].
  assert (accesses = [PathExists; ReadFile]) as -> by (by vm_compute in E; injection E).
  exists loaded.
  apply (successful_load_is_permanent parse (present water_text) initial (Finite 7)
           [PathExists; ReadFile] loaded later); [reflexivity|exact E].
Defined.

(** X4: over any sequence of calls of a fresh process, the configuration
    file is read at most once, and the log stays empty or holds exactly one
    diagnostic, that of a missing or malformed configuration, in which case
    the mapping is the empty one. *)
Theorem read_and_reported_at_most_once (JSON5_parse : string → External JSON)
    (calls : list (FileSystem * number)) :
  let final := (run JSON5_parse calls initial).1 in
  (reads (io final) ≤ 1)%nat ∧
  (driver_log final = [] ∨
   (notifications final = Some ∅ ∧
    ∃ e, driver_log final = [diagnostic e] ∧
         (e = ResourceMissing ∨ e = MalformedConfig))).
Proof.
  intros final.
  assert (Hfinal : at_most_once final).
  { apply at_most_once_run. by split. }
  unfold at_most_once in Hfinal.
  destruct (notifications final) as [loaded|].
  - destruct Hfinal as [Hreads [Hlog|[-> Hlog]]]; auto.
  - destruct Hfinal as [-> ->]. split; [lia|by left].
Qed.

(** X5: the entry point throws only when [notifications] is still undefined
    and [pathExists] itself raised; what it throws is that error. Whenever
    [pathExists] returns, the call returns and the mapping is set. *)
Theorem lookupNotification_throws_iff (JSON5_parse : string → External JSON)
    (fs : FileSystem) (p : Process) (notificationType : number) (e : Exception) :
  let call := lookupNotification JSON5_parse fs p notificationType in
  (call.2 = Throw e ↔
   notifications p = None ∧ ∃ n, pathExists fs = Raised n ∧ e = Foreign n) ∧
  ((∃ b, pathExists fs = Returned b) → is_Some (notifications call.1)).
Proof.
  unfold lookupNotification.
  destruct (notifications p) as [loaded|] eqn:Hp; simpl.
  { rewrite Hp. split; [|by eauto]. split; [done|]. by intros [? _]. }
  destruct (loadNotifications_outcomes JSON5_parse fs)
    as [[Hex ->]|[[n [Hex ->]]|[[Hex ->]|[Hex [loaded ->]]]]]; simpl; rewrite Hex.
  - split; [|by eauto]. split; [done|]. by intros [_ (n & ? & _)].
  - split; [|by intros [b ?]]. split.
    + intros [= <-]. eauto.
    + intros [_ (n' & [= <-] & ->)]. done.
  - split; [|by eauto]. split; [done|]. by intros [_ (n & ? & _)].
  - split; [|by eauto]. split; [done|]. by intros [_ (n & ? & _)].
Qed.

Lemma lookupNotification_throws_iff_witness :
  let parse := parse_table [(water_text, water_tree)] in
  (lookupNotification parse broken initial (Finite 6)).2 = Throw (Foreign "EIO") ∧
  is_Some (notifications (lookupNotification parse absent initial (Finite 6)).1).
Proof.
  intros parse. split.
  - apply (lookupNotification_throws_iff parse broken initial (Finite 6) (Foreign "EIO")).
    split; [reflexivity|]. by exists "EIO".
  - apply (lookupNotification_throws_iff parse absent initial (Finite 6) (Foreign "EIO")).
    by exists false.
Defined.

(** ** What a returned constructor has built *)

Lemma NotificationState_new_inv id definition state :
  NotificationState.new id definition = Ok state →
  NotificationState.id state = id ∧
  getProp definition "label" = Ok (NotificationState.label state) ∧
  getProp definition "description" = Ok (NotificationState.description state).
Proof.
  unfold NotificationState.new, mbind, mret, Result_bind, Result_ret.
  destruct (getProp definition "label"); [|done].
  destruct (getProp definition "description"); [|done].
  by intros [= <-].
Qed.

Lemma NotificationEvent_new_inv id definition event :
  NotificationEvent.new id definition = Ok event →
  NotificationEvent.id event = id ∧
  getProp definition "label" = Ok (NotificationEvent.label event) ∧
  getProp definition "description" = Ok (NotificationEvent.description event).
Proof.
  unfold NotificationEvent.new, mbind, mret, Result_bind, Result_ret.
  destruct (getProp definition "label"); [|done].
  destruct (getProp definition "description"); [|done].
  by intros [= <-].
Qed.

Lemma NotificationVariable_new_inv definition variable :
  NotificationVariable.new definition = Ok variable →
  getProp definition "name" = Ok (NotificationVariable.name variable) ∧
  (∃ idle_field, getProp definition "idle" = Ok idle_field ∧
                 NotificationVariable.idle variable = strict_ne_false idle_field) ∧
  ∃ states_field,
    getProp definition "states" = Ok states_field ∧
    isObject states_field = true ∧
    NotificationVariable.states_loop (entries states_field) ∅ =
      Ok (NotificationVariable.states variable).
Proof.
  unfold NotificationVariable.new, mbind, mret, Result_bind, Result_ret.
  destruct (getProp definition "name"); [|done].
  destruct (getProp definition "idle") as [idle_field|]; [|done].
  destruct (getProp definition "states") as [states_field|]; [|done].
  destruct (isObject states_field) eqn:Hobj; simpl; [|done].
  destruct (NotificationVariable.states_loop _ _) eqn:Hloop; [|done].
  intros [= <-]. simpl. split_and!; eauto.
Qed.

Lemma Notification_new_inv id definition ntfcn :
  Notification.new id definition = Ok ntfcn →
  Notification.id ntfcn = id ∧
  getProp definition "name" = Ok (Notification.name ntfcn) ∧
  (∃ variables_field,
     getProp definition "variables" = Ok variables_field ∧
     if isArray variables_field
     then map_throwing NotificationVariable.new (elements variables_field) =
            Ok (Notification.variables ntfcn)
     else Notification.variables ntfcn = []) ∧
  ∃ events_field,
    getProp definition "events" = Ok events_field ∧
    if isObject events_field
    then Notification.events_loop (entries events_field) ∅ = Ok (Notification.events ntfcn)
    else Notification.events ntfcn = ∅.
Proof.
  unfold Notification.new, mbind, mret, Result_bind, Result_ret.
  destruct (getProp definition "name"); [|done].
  destruct (getProp definition "variables") as [variables_field|]; [|done].
  destruct (getProp definition "events") as [events_field|];
    [|by destruct (if isArray variables_field then _ else _)].
  destruct (isArray variables_field) eqn:Harr;
    destruct (isObject events_field) eqn:Hobj;
    repeat match goal with
    | |- context [match ?x with Ok _ => _ | Throw _ => _ end] =>
        destruct x eqn:?; try done
    end;
    intros [= <-]; simpl; split_and!; try done;
    eexists; (split; [done|]); by rewrite ?Harr, ?Hobj.
Qed.

Lemma map_throwing_Forall2 {A B} (f : A → Result B) l built :
  map_throwing f l = Ok built → Forall2 (λ x y, f x = Ok y) l built.
Proof.
  revert built. induction l as [|x l IH]; intros built; simpl.
  - intros [= <-]. constructor.
  - destruct (f x) as [y|] eqn:Hx; simpl; [|done].
    destruct (map_throwing f l) as [ys|]; simpl; [|done].
    intros [= <-]. constructor; [done|by apply IH].
Qed.

Section CollectMore.
Context {A : Type} (ctor : number → JSON → Result A).

(** What holds of every stored value, given that it holds of what the
    constructor returns. *)
Lemma collect_invariant (P : number → A → Prop) es ret m :
  collect ctor es ret = Ok m →
  (∀ n a, ret !! n = Some a → P n a) →
  (∀ entry a, entry ∈ es → ctor (keyNumber entry.1) entry.2 = Ok a →
              P (keyNumber entry.1) a) →
  ∀ n a, m !! n = Some a → P n a.
Proof.
  revert ret. induction es as [|[k d] es IH]; intros ret; simpl.
  - by intros [= <-].
  - destruct (hexKeyRegex_test k); simpl; [|done].
    destruct (ctor (keyNumber k) d) as [a|] eqn:Ha; simpl; [|done].
    intros Hm Hret Hctor. eapply IH; [done| |].
    + intros n a'. destruct (decide (keyNumber k = n)) as [<-|Hne].
      * rewrite lookup_insert_eq. intros [= <-]. apply (Hctor (k, d)); [by left|done].
      * rewrite lookup_insert_ne by done. apply Hret.
    + intros entry a' Hin. apply Hctor. by right.
Qed.

(** The keys of the map are the numbers of the keys read. *)
Lemma collect_dom es ret m n :
  collect ctor es ret = Ok m →
  is_Some (m !! n) ↔ is_Some (ret !! n) ∨ ∃ entry, entry ∈ es ∧ keyNumber entry.1 = n.
Proof.
  revert ret. induction es as [|[k d] es IH]; intros ret; simpl.
  - intros [= <-]. split; [by left|]. intros [?|(entry & Hin & _)]; [done|].
    by apply not_elem_of_nil in Hin.
  - destruct (hexKeyRegex_test k); simpl; [|done].
    destruct (ctor (keyNumber k) d) as [a|]; simpl; [|done].
    intros Hm. rewrite (IH _ Hm). rewrite lookup_insert_is_Some. split.
    + intros [[<-|[_ ?]]|(entry & Hin & Hn)].
      * right. exists (k, d). split; [by left|done].
      * by left.
      * right. exists entry. split; [by right|done].
    + intros [Hret|(entry & Hin & Hn)].
      * left. destruct (decide (keyNumber k = n)); auto.
      * apply elem_of_cons in Hin as [->|Hin]; [left; by left|].
        right. by exists entry.
Qed.
End CollectMore.

Section LoadReturned.
Variable JSON5_parse : string → External JSON.

Lemma loadNotifications_returned fs loaded :
  (loadNotifications JSON5_parse fs).2 = Ok loaded →
  pathExists fs = Returned true ∧
  ∃ text es,
    readFile fs = Returned text ∧
    JSON5_parse text = Returned (JObject es) ∧
    loadNotifications_loop es ∅ = Ok loaded.
Proof.
  unfold loadNotifications.
  destruct (pathExists fs) as [[]|]; simpl; [|done|done].
  unfold try_catch, loadNotifications_try.
  destruct (readFile fs) as [text|] eqn:Hread; simpl; [|done].
  destruct (JSON5_parse text) as [root|] eqn:Hparse; simpl; [|done].
  destruct root; simpl; try done.
  destruct (loadNotifications_loop props ∅) as [m|e] eqn:Hloop; simpl.
  - intros [= <-]. split; [done|]. by exists text, props.
  - unfold loadNotifications_catch. by destruct e.
Qed.
End LoadReturned.

(** ** Failures below the top level and outside the constructors *)

(** X6: when the file exists but reading it raises, or its text does not
    parse, the error of the file system or of the parser is replaced by the
    malformed-config error: the load throws it after one read attempt, and
    the entry point prints the malformed-config diagnostic, which does not
    mention the original error, and returns absent. *)
Theorem unreadable_or_unparsable_is_malformed (JSON5_parse : string → External JSON)
    (fs : FileSystem) (p : Process) (notificationType : number) :
  pathExists fs = Returned true →
  ((∃ n, readFile fs = Raised n) ∨
   (∃ text n, readFile fs = Returned text ∧ JSON5_parse text = Raised n)) →
  notifications p = None →
  let call := lookupNotification JSON5_parse fs p notificationType in
  loadNotifications JSON5_parse fs = ([PathExists; ReadFile], Throw MalformedConfig) ∧
  call.2 = Ok None ∧
  notifications call.1 = Some ∅ ∧
  driver_log call.1 =
    driver_log p ++
    [("Could not load notification config: The config file is malformed!", "error")].
Proof.
  intros Hex Hbad Hp call.
  assert (Hload : loadNotifications JSON5_parse fs =
                  ([PathExists; ReadFile], Throw MalformedConfig)).
  { assert (∃ e, loadNotifications_try JSON5_parse fs = Throw e) as [e He].
    { unfold loadNotifications_try.
      destruct Hbad as [[n ->]|(text & n & -> & Hparse)];
        cbn [external mbind Result_bind]; [by eexists|].
      rewrite Hparse. by eexists. }
    by eapply load_present_throws. }
  split; [done|].
  unfold call, lookupNotification. by rewrite Hp, Hload.
Qed.

Lemma unreadable_or_unparsable_is_malformed_witness :
  let parse := parse_table [(water_text, water_tree)] in
  (lookupNotification parse unreadable initial (Finite 6)).2 = Ok None ∧
  loadNotifications parse (present garbage_text) =
    ([PathExists; ReadFile], Throw MalformedConfig).
Proof.
  intros parse. split.
  - apply (unreadable_or_unparsable_is_malformed parse unreadable initial (Finite 6));
      [reflexivity| |reflexivity].
    left. by exists "EACCES".
  - apply (unreadable_or_unparsable_is_malformed parse (present garbage_text)
             initial (Finite 6)); [reflexivity| |reflexivity].
    right. exists garbage_text, "SyntaxError". by split.
Defined.

(** X7: a malformed key below the top level fails the whole load as well:
    when some notification definition has an event key that fails the
    pattern, or a variable with a state key that fails it, the load throws
    the malformed-config error. *)
Theorem nested_bad_key_rejected (JSON5_parse : string → External JSON)
    (fs : FileSystem) (text : string) (es : list (string * JSON))
    (id : string) (props : list (string * JSON)) :
  pathExists fs = Returned true →
  readFile fs = Returned text →
  JSON5_parse text = Returned (JObject es) →
  (id, JObject props) ∈ es →
  ((∃ events entry,
      assoc "events" props = Some (JObject events) ∧
      entry ∈ events ∧ hexKeyRegex_test entry.1 = false) ∨
   (∃ variables variable states entry,
      assoc "variables" props = Some (JArray variables) ∧
      JObject variable ∈ variables ∧
      assoc "states" variable = Some (JObject states) ∧
      entry ∈ states ∧ hexKeyRegex_test entry.1 = false)) →
  loadNotifications JSON5_parse fs = ([PathExists; ReadFile], Throw MalformedConfig).
Proof.
  intros Hex Hread Hparse Hin Hbad.
  assert (∃ e, loadNotifications_try JSON5_parse fs = Throw e) as [e He];
    [|by eapply load_present_throws].
  unfold loadNotifications_try. rewrite Hread.
  cbn [external mbind Result_bind]. rewrite Hparse.
  cbn [external mbind Result_bind isObject negb entries].
  rewrite loadNotifications_loop_collect.
  apply (collect_rejects _ _ _ (id, JObject props) Hin).
  intros [_ [ntfcn Hnew]]. simpl in Hnew.
  apply Notification_new_inv in Hnew
    as (_ & _ & (variables_field & Hvf & Hvariables) & (events_field & Hef & Hevents)).
  simpl in Hvf, Hef. injection Hvf as <-. injection Hef as <-.
  destruct Hbad as [(events & entry & Hev & Hentry & Hkey)
                   |(variables & variable & states & entry & Hvars & Hvar & Hst & Hentry & Hkey)].
  - rewrite Hev in Hevents. simpl in Hevents. rewrite events_loop_collect in Hevents.
    apply collect_returns in Hevents. rewrite Forall_forall in Hevents.
    destruct (Hevents entry Hentry) as [Hok _]. congruence.
  - rewrite Hvars in Hvariables. simpl in Hvariables.
    apply map_throwing_Forall2 in Hvariables.
    apply list_elem_of_lookup in Hvar as [i Hi].
    destruct (Forall2_lookup_l _ _ _ i (JObject variable) Hvariables Hi)
      as (built & _ & Hbuilt).
    apply NotificationVariable_new_inv in Hbuilt
      as (_ & _ & (states_field & Hsf & _ & Hloop)).
    simpl in Hsf. injection Hsf as <-. rewrite Hst in Hloop. simpl in Hloop.
    rewrite states_loop_collect in Hloop.
    apply collect_returns in Hloop. rewrite Forall_forall in Hloop.
    destruct (Hloop entry Hentry) as [Hok _]. congruence.
Qed.

Lemma nested_bad_key_rejected_witness :
  loadNotifications (parse_table [(bad_event_text, JObject [("0x6", JObject bad_event_props)])])
    (present bad_event_text) = ([PathExists; ReadFile], Throw MalformedConfig) ∧
  loadNotifications (parse_table [(bad_state_text, JObject [("0x6", JObject bad_state_props)])])
    (present bad_state_text) = ([PathExists; ReadFile], Throw MalformedConfig).
Proof.
  split.
  - apply (nested_bad_key_rejected _ (present bad_event_text) bad_event_text
             [("0x6", JObject bad_event_props)] "0x6" bad_event_props); try reflexivity.
    + by left.
    + left. eexists _, ("x2", JObject [("label", JString "oops")]).
      split; [reflexivity|]. split; [|reflexivity]. right. by left.
  - apply (nested_bad_key_rejected _ (present bad_state_text) bad_state_text
             [("0x6", JObject bad_state_props)] "0x6" bad_state_props); try reflexivity.
    + by left.
    + right. eexists _, bad_state_variable, _, ("2", JObject [("label", JString "oops")]).
      split; [reflexivity|]. split; [by left|]. split; [reflexivity|].
      split; [by left|reflexivity].
Defined.

(** ** What a loaded mapping holds *)

(** X8: in a mapping that the loader returned, every record carries the
    number it is stored under: the [id] of a notification is its key, the
    [id] of each of its events is that event's key, and the [id] of each
    state of each of its variables is that state's key. *)
Theorem ids_match_keys (JSON5_parse : string → External JSON) (fs : FileSystem)
    (loaded : gmap number Notification.t) (n : number) (ntfcn : Notification.t) :
  (loadNotifications JSON5_parse fs).2 = Ok loaded →
  loaded !! n = Some ntfcn →
  Notification.id ntfcn = n ∧
  (∀ value event, Notification.events ntfcn !! value = Some event →
                  NotificationEvent.id event = value) ∧
  (∀ variable value state,
     variable ∈ Notification.variables ntfcn →
     NotificationVariable.states variable !! value = Some state →
     NotificationState.id state = value).
Proof.
  intros (_ & text & es & _ & _ & Hloop)%loadNotifications_returned.
  rewrite loadNotifications_loop_collect in Hloop.
  revert n ntfcn. apply (collect_invariant _ _ es ∅ loaded Hloop); [done|].
  intros [k d] ntfcn _ Hnew. simpl in *.
  apply Notification_new_inv in Hnew
    as (Hid & _ & (variables_field & _ & Hvariables) & (events_field & _ & Hevents)).
  split_and!; [done| |].
  - destruct (isObject events_field).
    + rewrite events_loop_collect in Hevents.
      apply (collect_invariant _ (λ value event, NotificationEvent.id event = value)
               _ ∅ _ Hevents); [done|].
      intros entry event _ Hevent. by apply NotificationEvent_new_inv in Hevent as [? _].
    + rewrite Hevents. intros value event. by rewrite lookup_empty.
  - intros variable value state Hin.
    destruct (isArray variables_field); [|rewrite Hvariables in Hin; by apply not_elem_of_nil in Hin].
    apply map_throwing_Forall2 in Hvariables.
    apply list_elem_of_lookup in Hin as [i Hi].
    destruct (Forall2_lookup_r _ _ _ i variable Hvariables Hi) as (raw & _ & Hbuilt).
    apply NotificationVariable_new_inv in Hbuilt as (_ & _ & (states_field & _ & _ & Hstates)).
    rewrite states_loop_collect in Hstates. revert value state.
    apply (collect_invariant _ (λ value state, NotificationState.id state = value)
             _ ∅ _ Hstates); [done|].
    intros entry state _ Hstate. by apply NotificationState_new_inv in Hstate as [? _].
Qed.

Lemma ids_match_keys_witness :
  let parse := parse_table [(twice_text, JObject twice_entries)] in
  Notification.id twice_built = Finite 6 ∧
  (∀ value event, Notification.events twice_built !! value = Some event →
                  NotificationEvent.id event = value) ∧
  (∀ variable value state,
     variable ∈ Notification.variables twice_built →
     NotificationVariable.states variable !! value = Some state →
     NotificationState.id state = value).
Proof.
  intros parse.
  apply (ids_match_keys parse (present twice_text) {[ Finite 6 := twice_built ]} (Finite 6)).
  - by vm_compute.
  - reflexivity.
Defined.

(** X9: the notification types a loaded mapping knows are exactly the
    numbers of the top-level keys of the configuration; in particular the
    entry point is absent for every other type, [NaN] included. *)
Theorem loaded_types_are_the_keys (JSON5_parse : string → External JSON)
    (fs : FileSystem) (text : string) (root : JSON)
    (loaded : gmap number Notification.t) (p : Process) (notificationType : number) :
  readFile fs = Returned text →
  JSON5_parse text = Returned root →
  (loadNotifications JSON5_parse fs).2 = Ok loaded →
  notifications p = None →
  (is_Some (loaded !! notificationType) ↔
   ∃ entry, entry ∈ entries (Some root) ∧ keyNumber entry.1 = notificationType) ∧
  loaded !! NaN = None ∧
  ((∀ entry, entry ∈ entries (Some root) → keyNumber entry.1 ≠ notificationType) →
   (lookupNotification JSON5_parse fs p notificationType).2 = Ok None).
Proof.
  intros Hread Hparse Hload Hp.
  destruct (loadNotifications_returned _ _ _ Hload)
    as (_ & text' & es & Hread' & Hparse' & Hloop).
  rewrite Hread in Hread'. injection Hread' as <-.
  rewrite Hparse in Hparse'. injection Hparse' as ->. simpl.
  rewrite loadNotifications_loop_collect in Hloop.
  assert (Hdom : ∀ n, is_Some (loaded !! n) ↔ ∃ entry, entry ∈ es ∧ keyNumber entry.1 = n).
  { intros n. rewrite (collect_dom _ _ _ _ n Hloop). rewrite lookup_empty. split.
    - intros [[? [=]]|?]; done.
    - by right. }
  split_and!; [apply Hdom| |].
  - apply eq_None_not_Some. rewrite Hdom. intros (entry & Hin & Hnan).
    apply collect_returns in Hloop. rewrite Forall_forall in Hloop.
    destruct (Hloop entry Hin) as [Hkey _]. by apply valid_key_not_NaN in Hkey.
  - intros Hother. unfold lookupNotification. rewrite Hp.
    destruct (loadNotifications JSON5_parse fs) as [accesses outcome].
    simpl in Hload. rewrite Hload. simpl. f_equal.
    apply eq_None_not_Some. rewrite Hdom. intros (entry & Hin & Hn). by apply (Hother entry).
Qed.

Lemma loaded_types_are_the_keys_witness :
  let parse := parse_table [(water_text, water_tree)] in
  ∃ loaded : gmap number Notification.t,
    (is_Some (loaded !! Finite 6) ↔
     ∃ entry, entry ∈ entries (Some water_tree) ∧ keyNumber entry.1 = Finite 6) ∧
    loaded !! NaN = None ∧
    ((∀ entry, entry ∈ entries (Some water_tree) → keyNumber entry.1 ≠ Finite 6) →
     (lookupNotification parse (present water_text) initial (Finite 6)).2 = Ok None).
Proof.
  intros parse.
  destruct (loadNotifications parse (present water_text)).2 as [loaded|e] eqn:E;
    [|vm_compute in E; discriminate].
  exists loaded.
  apply (loaded_types_are_the_keys parse (present water_text) water_text water_tree
           loaded initial (Finite 6)); try reflexivity. exact E.
Defined.

(** X10: when the [variables] field is an array and the constructor of a
    notification returns, the variables it holds are the constructed
    elements of that array, one for one and in the same order. *)
Theorem variables_keep_order (id : number) (definition : JSON)
    (raw : list JSON) (ntfcn : Notification.t) :
  getProp definition "variables" = Ok (Some (JArray raw)) →
  Notification.new id definition = Ok ntfcn →
  Forall2 (λ element variable, NotificationVariable.new element = Ok variable)
    raw (Notification.variables ntfcn) ∧
  List.length (Notification.variables ntfcn) = List.length raw.
Proof.
  intros Hraw (_ & _ & (variables_field & Hvf & Hvariables) & _)%Notification_new_inv.
  rewrite Hraw in Hvf. injection Hvf as <-. simpl in Hvariables.
  apply map_throwing_Forall2 in Hvariables. split; [done|].
  symmetry. by eapply Forall2_length.
Qed.

Lemma variables_keep_order_witness :
  Forall2 (λ element variable, NotificationVariable.new element = Ok variable)
    two_variables [variable_built false; variable_built true] ∧
  List.length [variable_built false; variable_built true] = List.length two_variables.
Proof.
  apply (variables_keep_order (Finite 6) two_variables_tree two_variables
           (Notification.mk (Finite 6) (Some (JString "Water"))
              [variable_built false; variable_built true] ∅)).
  - reflexivity.
  - by vm_compute.
Defined.

(** ** From the configuration to the descriptor *)

Section Configured.
Variable JSON5_parse : string → External JSON.

(** The last top-level entry with a given number is what the entry point
    returns for that number. *)
Lemma configured_notification_returned fs text p pre post id definition accesses loaded :
  notifications p = None →
  readFile fs = Returned text →
  JSON5_parse text = Returned (JObject (pre ++ (id, definition) :: post)) →
  loadNotifications JSON5_parse fs = (accesses, Ok loaded) →
  (∀ entry, entry ∈ post → keyNumber entry.1 ≠ keyNumber id) →
  ∃ ntfcn,
    Notification.new (keyNumber id) definition = Ok ntfcn ∧
    (lookupNotification JSON5_parse fs p (keyNumber id)).2 = Ok (Some ntfcn).
Proof.
  intros Hp Hread Hparse Hload Hlast.
  assert (Hload' : (loadNotifications JSON5_parse fs).2 = Ok loaded) by (by rewrite Hload).
  destruct (loadNotifications_returned _ _ _ Hload')
    as (_ & text' & es & Hread' & Hparse' & Hloop).
  rewrite Hread in Hread'. injection Hread' as <-.
  rewrite Hparse in Hparse'. injection Hparse' as <-.
  rewrite loadNotifications_loop_collect in Hloop.
  destruct (collect_lookup_last _ _ _ _ _ _ _ Hloop Hlast) as (ntfcn & Hnew & Hlookup).
  exists ntfcn. split; [done|].
  rewrite (lookupNotification_first_load _ _ _ _ _ _ Hp Hload). simpl. by rewrite Hlookup.
Qed.
End Configured.

(** The states of a constructed variable do not know a number that none of
    the raw state keys converts to. *)
Lemma variable_without_state element variable n :
  NotificationVariable.new element = Ok variable →
  (∀ states_field, getProp element "states" = Ok states_field →
     ∀ entry, entry ∈ entries states_field → keyNumber entry.1 ≠ n) →
  NotificationVariable.states variable !! n = None.
Proof.
  intros (_ & _ & (states_field & Hsf & _ & Hloop))%NotificationVariable_new_inv Hnone.
  rewrite states_loop_collect in Hloop.
  apply eq_None_not_Some. rewrite (collect_dom _ _ _ _ n Hloop), lookup_empty.
  intros [[? [=]]|(entry & Hin & Hn)]. by apply (Hnone _ Hsf entry).
Qed.

(** X11: an event written in the configuration is what the lookup returns.
    When the load returned, the entry point returns, for the number of a
    top-level key (the last one with that number), a record whose
    [lookupValue] at the number of one of its event keys (again the last
    one with that number) is the event descriptor with the [label] and the
    [description] read from that event's definition. *)
Theorem configured_event_is_resolved (JSON5_parse : string → External JSON)
    (fs : FileSystem) (text : string) (p : Process)
    (pre post : list (string * JSON)) (id : string) (definition : JSON)
    (events_before events_after : list (string * JSON))
    (eventId : string) (eventDefinition : JSON)
    (accesses : list IOEvent) (loaded : gmap number Notification.t) :
  notifications p = None →
  readFile fs = Returned text →
  JSON5_parse text = Returned (JObject (pre ++ (id, definition) :: post)) →
  loadNotifications JSON5_parse fs = (accesses, Ok loaded) →
  (∀ entry, entry ∈ post → keyNumber entry.1 ≠ keyNumber id) →
  getProp definition "events" =
    Ok (Some (JObject (events_before ++ (eventId, eventDefinition) :: events_after))) →
  (∀ entry, entry ∈ events_after → keyNumber entry.1 ≠ keyNumber eventId) →
  ∃ ntfcn label description,
    (lookupNotification JSON5_parse fs p (keyNumber id)).2 = Ok (Some ntfcn) ∧
    getProp eventDefinition "label" = Ok label ∧
    getProp eventDefinition "description" = Ok description ∧
    Notification.lookupValue ntfcn (keyNumber eventId) =
      Some (EventDefinition label description).
Proof.
  intros Hp Hread Hparse Hload Hlast Hevents Hlast_event.
  destruct (configured_notification_returned JSON5_parse _ _ _ _ _ _ _ _ _
              Hp Hread Hparse Hload Hlast) as (ntfcn & Hnew & Hcall).
  apply Notification_new_inv in Hnew as (_ & _ & _ & (events_field & Hef & Hloop)).
  rewrite Hevents in Hef. injection Hef as <-. simpl in Hloop.
  rewrite events_loop_collect in Hloop.
  destruct (collect_lookup_last _ _ _ _ _ _ _ Hloop Hlast_event) as (event & Hevent & Hlookup).
  apply NotificationEvent_new_inv in Hevent as (_ & Hlabel & Hdescription).
  exists ntfcn, (NotificationEvent.label event), (NotificationEvent.description event).
  split_and!; try done.
  unfold Notification.lookupValue. by rewrite Hlookup.
Qed.

Lemma configured_event_is_resolved_witness :
  let parse := parse_table [(clash_text, JObject [("0x6", clash_tree)])] in
  ∃ ntfcn label description,
    (lookupNotification parse (present clash_text) initial (keyNumber "0x6")).2 =
      Ok (Some ntfcn) ∧
    getProp (JObject [("label", JString "Keypad lock");
                      ("description", JString "Locked by event")]) "label" = Ok label ∧
    getProp (JObject [("label", JString "Keypad lock");
                      ("description", JString "Locked by event")]) "description" =
      Ok description ∧
    Notification.lookupValue ntfcn (keyNumber "0x5") =
      Some (EventDefinition label description).
Proof.
  intros parse.
  assert (Hnone : ∀ n (entry : string * JSON), entry ∈ [] → keyNumber entry.1 ≠ n).
  { intros n entry Hin. by apply not_elem_of_nil in Hin. }
  destruct (loadNotifications parse (present clash_text)) as [accesses [loaded|e]] eqn:E;
    [|vm_compute in E; discriminate].
  apply (configured_event_is_resolved parse (present clash_text) clash_text initial
           [] [] "0x6" clash_tree [] [] "0x5" _ accesses loaded);
    try reflexivity; try apply Hnone. exact E.
Defined.

(** X12: a state written in the configuration is what the lookup returns.
    When the load returned, no event key of the notification converts to
    the number of the state key, and no earlier variable has a state key
    that converts to it, the record's [lookupValue] at that number is the
    state descriptor with the variable's [name], the queried number,
    [idle !== false], and the [label] and [description] read from the
    state's definition. *)
Theorem configured_state_is_resolved (JSON5_parse : string → External JSON)
    (fs : FileSystem) (text : string) (p : Process)
    (pre post : list (string * JSON)) (id : string) (definition : JSON)
    (events_field : JSValue)
    (variables_before variables_after : list JSON) (variable : JSON)
    (states_before states_after : list (string * JSON))
    (stateId : string) (stateDefinition : JSON)
    (accesses : list IOEvent) (loaded : gmap number Notification.t) :
  notifications p = None →
  readFile fs = Returned text →
  JSON5_parse text = Returned (JObject (pre ++ (id, definition) :: post)) →
  loadNotifications JSON5_parse fs = (accesses, Ok loaded) →
  (∀ entry, entry ∈ post → keyNumber entry.1 ≠ keyNumber id) →
  getProp definition "events" = Ok events_field →
  (∀ entry, entry ∈ entries events_field → keyNumber entry.1 ≠ keyNumber stateId) →
  getProp definition "variables" =
    Ok (Some (JArray (variables_before ++ variable :: variables_after))) →
  (∀ earlier states_field,
     earlier ∈ variables_before → getProp earlier "states" = Ok states_field →
     ∀ entry, entry ∈ entries states_field → keyNumber entry.1 ≠ keyNumber stateId) →
  getProp variable "states" =
    Ok (Some (JObject (states_before ++ (stateId, stateDefinition) :: states_after))) →
  (∀ entry, entry ∈ states_after → keyNumber entry.1 ≠ keyNumber stateId) →
  ∃ ntfcn name idle_field label description,
    (lookupNotification JSON5_parse fs p (keyNumber id)).2 = Ok (Some ntfcn) ∧
    getProp variable "name" = Ok name ∧
    getProp variable "idle" = Ok idle_field ∧
    getProp stateDefinition "label" = Ok label ∧
    getProp stateDefinition "description" = Ok description ∧
    Notification.lookupValue ntfcn (keyNumber stateId) =
      Some (StateDefinition name (keyNumber stateId) (strict_ne_false idle_field)
              label description).
Proof.
  intros Hp Hread Hparse Hload Hlast Hevents Hno_event Hvariables Hearlier Hstates Hlast_state.
  destruct (configured_notification_returned JSON5_parse _ _ _ _ _ _ _ _ _
              Hp Hread Hparse Hload Hlast) as (ntfcn & Hnew & Hcall).
  apply Notification_new_inv in Hnew
    as (_ & _ & (variables_field & Hvf & Hbuilt) & (events_field' & Hef & Hloop)).
  rewrite Hevents in Hef. injection Hef as <-.
  rewrite Hvariables in Hvf. injection Hvf as <-. simpl in Hbuilt.
  assert (Hevent : Notification.events ntfcn !! keyNumber stateId = None).
  { destruct (isObject events_field); [|by rewrite Hloop, lookup_empty].
    rewrite events_loop_collect in Hloop.
    apply eq_None_not_Some. rewrite (collect_dom _ _ _ _ _ Hloop), lookup_empty.
    intros [[? [=]]|(entry & Hin & Hn)]. by apply (Hno_event entry). }
  apply map_throwing_Forall2 in Hbuilt.
  apply Forall2_app_inv_l in Hbuilt as (built_before & rest & Hbefore & Hrest & Hsplit).
  apply Forall2_cons_inv_l in Hrest as (built & built_after & Hvariable & _ & ->).
  assert (Hnone : ∀ earlier, earlier ∈ built_before →
            NotificationVariable.states earlier !! keyNumber stateId = None).
  { intros earlier [i Hi]%list_elem_of_lookup.
    destruct (Forall2_lookup_r _ _ _ i earlier Hbefore Hi) as (raw & Hraw & Hnew).
    apply (variable_without_state raw); [done|].
    intros states_field Hsf. apply (Hearlier raw); [|done].
    apply list_elem_of_lookup. by exists i. }
  apply NotificationVariable_new_inv in Hvariable
    as (Hname & (idle_field & Hidle & Hflag) & (states_field & Hsf & _ & Hstates_loop)).
  rewrite Hstates in Hsf. injection Hsf as <-. simpl in Hstates_loop.
  rewrite states_loop_collect in Hstates_loop.
  destruct (collect_lookup_last _ _ _ _ _ _ _ Hstates_loop Hlast_state)
    as (state & Hstate & Hlookup).
  apply NotificationState_new_inv in Hstate as (_ & Hlabel & Hdescription).
  exists ntfcn, (NotificationVariable.name built), idle_field,
    (NotificationState.label state), (NotificationState.description state).
  split_and!; try done.
  unfold Notification.lookupValue.
  rewrite Hevent, Hsplit, (find_first _ built_before built built_after).
  - by rewrite Hlookup, Hflag.
  - intros earlier Hin. by apply has_state_false, Hnone.
  - unfold Notification.has_state. apply bool_decide_eq_true. by rewrite Hlookup.
Qed.

Example security_resolved :
  (lookupNotification (parse_table [(security_text, JObject [("0x7", security_tree)])])
     (present security_text) initial (Finite 7)).2
  ≫= (λ r, Ok (r ≫= λ ntfcn,
         Some (Notification.lookupValue ntfcn (Finite 1),
               Notification.lookupValue ntfcn (Finite 2)))) =
  Ok (Some (Some (StateDefinition (Some (JString "Sensor")) (Finite 1) false
                    (Some (JString "Open")) undefined),
            Some (StateDefinition (Some (JString "Cover")) (Finite 2) true
                    (Some (JString "Closed")) (Some (JString "Cover closed"))))).
Proof. by vm_compute. Qed.

Lemma configured_state_is_resolved_witness :
  let parse := parse_table [(security_text, JObject [("0x7", security_tree)])] in
  ∃ ntfcn name idle_field label description,
    (lookupNotification parse (present security_text) initial (keyNumber "0x7")).2 =
      Ok (Some ntfcn) ∧
    getProp cover_tree "name" = Ok name ∧
    getProp cover_tree "idle" = Ok idle_field ∧
    getProp (JObject [("label", JString "Closed"); ("description", JString "Cover closed")])
      "label" = Ok label ∧
    getProp (JObject [("label", JString "Closed"); ("description", JString "Cover closed")])
      "description" = Ok description ∧
    Notification.lookupValue ntfcn (keyNumber "0x2") =
      Some (StateDefinition name (keyNumber "0x2") (strict_ne_false idle_field)
              label description).
Proof.
  intros parse.
  assert (Hnone : ∀ n (entry : string * JSON), entry ∈ [] → keyNumber entry.1 ≠ n).
  { intros n entry Hin. by apply not_elem_of_nil in Hin. }
  destruct (loadNotifications parse (present security_text)) as [accesses [loaded|e]] eqn:E;
    [|vm_compute in E; discriminate].
  apply (configured_state_is_resolved parse (present security_text) security_text initial
           [] [] "0x7" security_tree undefined
           [sensor_tree] [] cover_tree
           [("0x1", JObject [("label", JString "Removed")])] [] "0x2" _ accesses loaded);
    try reflexivity; try apply Hnone; try exact E.
  intros earlier states_field Hin Hsf entry Hentry.
  apply list_elem_of_In in Hin. simpl in Hin. destruct Hin as [<-|[]].
  simpl in Hsf. injection Hsf as <-. simpl in Hentry.
  apply list_elem_of_In in Hentry. simpl in Hentry. destruct Hentry as [<-|[]].
  by vm_compute.
Defined.

(** ** Leading zeros *)

(** X13: a zero put in front of the digits of an accepted key gives an
    accepted key with the same number, so both keys name the same entry of
    the map. *)
Theorem leading_zero_same_number (digits : string) :
  hexKeyRegex_test (String "0" (String "x" digits)) = true →
  hexKeyRegex_test (String "0" (String "x" (String "0" digits))) = true ∧
  keyNumber (String "0" (String "x" (String "0" digits))) =
  keyNumber (String "0" (String "x" digits)).
Proof.
  destruct digits as [|c rest]; [done|].
  cbn [hexKeyRegex_test]. intros Hhex. split.
  - cbn [allHex] in *. by rewrite Hhex.
  - cbn [allHex] in Hhex.
    apply andb_true_iff in Hhex as [[d Hd]%bool_decide_eq_true _].
    unfold keyNumber, parseInt16. cbn [slice hexPrefix].
    change (hexDigit "0") with (Some 0). cbn [default]. by rewrite Hd.
Qed.

Lemma leading_zero_same_number_witness :
  hexKeyRegex_test "0x06" = true ∧ keyNumber "0x06" = keyNumber "0x6".
Proof. apply (leading_zero_same_number "6"). reflexivity. Defined.

(** ** The order of the keys *)

Section Order.
Context {A : Type} (ctor : number → JSON → Result A).

Lemma collect_cons_accepted k d a rest ret :
  hexKeyRegex_test k = true → ctor (keyNumber k) d = Ok a →
  collect ctor ((k, d) :: rest) ret = collect ctor rest (<[keyNumber k := a]> ret).
Proof. intros Hk Ha. simpl. by rewrite Hk, Ha. Qed.

(** Entries that are all accepted and whose numbers are pairwise distinct
    can be read in any order. *)
Lemma collect_permutation es es' ret :
  es ≡ₚ es' →
  Forall (accepted ctor) es →
  NoDup ((λ entry, keyNumber entry.1) <$> es) →
  collect ctor es ret = collect ctor es' ret.
Proof.
  intros Hperm. revert ret.
  induction Hperm as [|[k d] l l' Hperm IH|[k1 d1] [k2 d2] l|l l' l'' H1 IH1 H2 IH2];
    intros ret Hall Hnodup.
  - done.
  - apply Forall_cons in Hall as [[Hk [a Ha]] Hall]. simpl in Hk, Ha.
    rewrite fmap_cons in Hnodup. apply NoDup_cons in Hnodup as [_ Hnodup].
    rewrite !(collect_cons_accepted k d a) by done. by apply IH.
  - apply Forall_cons in Hall as [[Hk2 [a2 Ha2]] Hall]. simpl in Hk2, Ha2.
    apply Forall_cons in Hall as [[Hk1 [a1 Ha1]] Hall]. simpl in Hk1, Ha1.
    rewrite !fmap_cons in Hnodup. apply NoDup_cons in Hnodup as [Hne _].
    simpl in Hne. apply not_elem_of_cons in Hne as [Hne _].
    rewrite (collect_cons_accepted k2 d2 a2), (collect_cons_accepted k1 d1 a1) by done.
    rewrite (collect_cons_accepted k1 d1 a1), (collect_cons_accepted k2 d2 a2) by done.
    by rewrite insert_insert_ne.
  - rewrite IH1 by done. apply IH2.
    + by rewrite <- H1.
    + by rewrite <- H1.
Qed.
End Order.

(** X14: when the numbers of the top-level keys are pairwise distinct, the
    order in which the configuration lists them does not matter: two
    configurations with the same entries in different orders load to the
    same mapping, or both fail with the malformed-config error. *)
Theorem key_order_is_irrelevant (JSON5_parse : string → External JSON)
    (fs fs' : FileSystem) (text text' : string) (es es' : list (string * JSON)) :
  pathExists fs = Returned true →
  pathExists fs' = Returned true →
  readFile fs = Returned text →
  readFile fs' = Returned text' →
  JSON5_parse text = Returned (JObject es) →
  JSON5_parse text' = Returned (JObject es') →
  es ≡ₚ es' →
  NoDup ((λ entry, keyNumber entry.1) <$> es) →
  loadNotifications JSON5_parse fs = loadNotifications JSON5_parse fs'.
Proof.
  intros Hex Hex' Hread Hread' Hparse Hparse' Hperm Hnodup.
  assert (Htry : ∀ fs0 text0 es0,
            readFile fs0 = Returned text0 → JSON5_parse text0 = Returned (JObject es0) →
            loadNotifications_try JSON5_parse fs0 = collect Notification.new es0 ∅).
  { intros fs0 text0 es0 H1 H2. unfold loadNotifications_try. rewrite H1.
    cbn [external mbind Result_bind]. rewrite H2.
    cbn [external mbind Result_bind isObject negb entries].
    apply loadNotifications_loop_collect. }
  destruct (collect Notification.new es ∅) as [m|e] eqn:Hes.
  - pose proof (collect_returns _ _ _ _ Hes) as Hall.
    pose proof (collect_permutation Notification.new es es' ∅ Hperm Hall Hnodup) as Heq.
    unfold loadNotifications. rewrite Hex, Hex'.
    by rewrite (Htry _ _ _ Hread Hparse), (Htry _ _ _ Hread' Hparse'), <- Heq.
  - destruct (collect Notification.new es' ∅) as [m'|e'] eqn:Hes'.
    + pose proof (collect_returns _ _ _ _ Hes') as Hall'.
      assert (Hall : Forall (accepted Notification.new) es) by (by rewrite Hperm).
      destruct (collect_accepts Notification.new es ∅ Hall) as [m Hm]. congruence.
    + rewrite (load_present_throws JSON5_parse fs e Hex)
        by (by rewrite (Htry _ _ _ Hread Hparse)).
      rewrite (load_present_throws JSON5_parse fs' e' Hex')
        by (by rewrite (Htry _ _ _ Hread' Hparse')).
      done.
Qed.

Lemma key_order_is_irrelevant_witness :
  loadNotifications both_parse (present both_text) =
  loadNotifications both_parse (present both_swapped_text).
Proof.
  apply (key_order_is_irrelevant both_parse (present both_text) (present both_swapped_text)
           both_text both_swapped_text both_entries (List.rev both_entries));
    try reflexivity.
  - apply Permutation_rev.
  - apply (bool_decide_unpack (NoDup _)). by vm_compute.
Defined.
